(** * OgreVolumeGridSource: a shallow embedding of [Ogre::Volume::GridSource]

    The development follows [Components/Volume/src/OgreVolumeGridSource.cpp]:
    the two ray/box helpers, the two sampling functions and the region bake
    [combineWithSource].

    Numbers.  [Real] is modelled by the exact rationals [Q], compared with
    [==]; rounding of the machine type is not modelled.  The conversions of a
    [Real] to [size_t] and to [int] are partial, as in C++: they are defined
    only when the truncated value is representable.  Integer values live in
    [Z]. *)

From Stdlib Require Import ZArith QArith Qround Qabs Lia Lqa List Bool.
From Stdlib Require Import Setoid Morphisms.
Import ListNotations.

Local Open Scope Z_scope.
Local Open Scope Q_scope.

(* ================================================================== *)
(** ** Numbers and conversions *)

Module Num.

Definition Real : Type := Q.

(** Truncation toward zero: what a C++ floating to integral conversion
    computes before the range check. *)
Definition trunc (r : Real) : Z :=
  if Qle_bool 0 r then Qfloor r else Qceiling r.

Definition SIZE_MAX : Z := (2 ^ 64 - 1)%Z.
Definition INT_MIN : Z := (- 2 ^ 31)%Z.
Definition INT_MAX : Z := (2 ^ 31 - 1)%Z.

(** [(size_t)r]: undefined (here [None]) when the truncated value does not
    fit. *)
Definition to_size_t (r : Real) : option Z :=
  let t := trunc r in
  if ((0 <=? t) && (t <=? SIZE_MAX))%Z then Some t else None.

(** [(int)r]. *)
Definition to_int (r : Real) : option Z :=
  let t := trunc r in
  if ((INT_MIN <=? t) && (t <=? INT_MAX))%Z then Some t else None.

(** [ceil(r)], still a [Real]. *)
Definition ceil (r : Real) : Real := inject_Z (Qceiling r).

(** [(Real)n] for an integer [n]. *)
Definition of_int (n : Z) : Real := inject_Z n.

(** Modelled from the spec: [Math::Clamp] is declared in OgreMath.h, not in
    this translation unit; the bake "clamps each bound into [0, dimension]",
    that is [max (min val maxval) minval]. *)
Definition Clamp (val minval maxval : Z) : Z :=
  Z.max (Z.min val maxval) minval.

End Num.
Export Num.

(* ================================================================== *)
(** ** Vectors, rays and boxes *)

Record Vector3 : Type := mkVector3 { vx : Real; vy : Real; vz : Real }.
Record Vector4 : Type := mkVector4 { v4x : Real; v4y : Real; v4z : Real; v4w : Real }.

Definition vadd (a b : Vector3) : Vector3 :=
  mkVector3 (vx a + vx b) (vy a + vy b) (vz a + vz b).

(** [v * s] *)
Definition vscale (a : Vector3) (s : Real) : Vector3 :=
  mkVector3 (vx a * s) (vy a * s) (vz a * s).

(** [s * v] *)
Definition vscale_l (s : Real) (a : Vector3) : Vector3 :=
  mkVector3 (s * vx a) (s * vy a) (s * vz a).

Definition vsub (a b : Vector3) : Vector3 :=
  mkVector3 (vx a - vx b) (vy a - vy b) (vz a - vz b).

(** Componentwise equality of vectors up to [==]. *)
Definition veq (a b : Vector3) : Prop :=
  vx a == vx b /\ vy a == vy b /\ vz a == vz b.

Record Ray : Type := mkRay { getOrigin : Vector3; getDirection : Vector3 }.

Record AxisAlignedBox : Type :=
  mkBox { mMinimum : Vector3; mMaximum : Vector3 }.

(** [AxisAlignedBox box(mx, my, mz, Mx, My, Mz)] *)
Definition AxisAlignedBox_of (mx my mz Mx My Mz : Real) : AxisAlignedBox :=
  mkBox (mkVector3 mx my mz) (mkVector3 Mx My Mz).

(** [box.getSize()] *)
Definition getSize (b : AxisAlignedBox) : Vector3 :=
  vsub (mMaximum b) (mMinimum b).

(** Modelled from the spec: [AxisAlignedBox::intersects(const Vector3&)] is
    declared in OgreAxisAlignedBox.h, not in this translation unit; the spec
    has the origin "inside the lattice's axis-aligned box
    [0,width]x[0,height]x[0,depth]", a closed box. *)
Definition box_contains (b : AxisAlignedBox) (v : Vector3) : bool :=
  Qle_bool (vx (mMinimum b)) (vx v) && Qle_bool (vx v) (vx (mMaximum b)) &&
  Qle_bool (vy (mMinimum b)) (vy v) && Qle_bool (vy v) (vy (mMaximum b)) &&
  Qle_bool (vz (mMinimum b)) (vz v) && Qle_bool (vz v) (vz (mMaximum b)).

(** The math library the two ray helpers call into: vector normalisation,
    vector length and the ray/box test returning [(hit, distance)].  They
    need square roots and are kept abstract. *)
Class RayBoxPrimitives : Type := {
  normalisedCopy : Vector3 -> Vector3;
  length : Vector3 -> Real;
  ray_intersects : Ray -> AxisAlignedBox -> bool * Real
}.

(* ================================================================== *)
(** ** The grid and its storage *)

(** The accessors [GridSource] leaves to its subclasses and to its header:
    the sample reader, the sample writer and the per-point gradient (which
    reads the Sobel flag). *)
Class GridStorage (S : Type) : Type := {
  getVolumeGridValue : S -> Z -> Z -> Z -> Real;
  setVolumeGridValue : S -> Z -> Z -> Z -> Real -> S;
  getGradient : bool -> S -> Z -> Z -> Z -> Vector3
}.

(** What the spec asks of a storage: a write is read back at its own
    coordinate and leaves the other coordinates alone. *)
Class LawfulStorage (S : Type) `{GridStorage S} : Prop := {
  get_set_same : forall s x y z v,
    getVolumeGridValue (setVolumeGridValue s x y z v) x y z = v;
  get_set_other : forall s x y z v x' y' z',
    (x, y, z) <> (x', y', z') ->
    getVolumeGridValue (setVolumeGridValue s x y z v) x' y' z' =
    getVolumeGridValue s x' y' z'
}.

Record GridSource (S : Type) : Type := mkGridSource {
  mWidth : Z;
  mHeight : Z;
  mDepth : Z;
  mPosXScale : Real;
  mPosYScale : Real;
  mPosZScale : Real;
  mTrilinearValue : bool;
  mTrilinearGradient : bool;
  mSobelGradient : bool;
  mVolumeSpaceToWorldSpaceFactor : Real;
  mStorage : S
}.

Arguments mkGridSource {S}.
Arguments mWidth {S}. Arguments mHeight {S}. Arguments mDepth {S}.
Arguments mPosXScale {S}. Arguments mPosYScale {S}. Arguments mPosZScale {S}.
Arguments mTrilinearValue {S}. Arguments mTrilinearGradient {S}.
Arguments mSobelGradient {S}. Arguments mVolumeSpaceToWorldSpaceFactor {S}.
Arguments mStorage {S}.

Definition set_mTrilinearValue {S} (b : bool) (g : GridSource S) : GridSource S :=
  mkGridSource (mWidth g) (mHeight g) (mDepth g)
    (mPosXScale g) (mPosYScale g) (mPosZScale g)
    b (mTrilinearGradient g) (mSobelGradient g)
    (mVolumeSpaceToWorldSpaceFactor g) (mStorage g).

Definition set_mTrilinearGradient {S} (b : bool) (g : GridSource S) : GridSource S :=
  mkGridSource (mWidth g) (mHeight g) (mDepth g)
    (mPosXScale g) (mPosYScale g) (mPosZScale g)
    (mTrilinearValue g) b (mSobelGradient g)
    (mVolumeSpaceToWorldSpaceFactor g) (mStorage g).

Definition set_mStorage {S} (s : S) (g : GridSource S) : GridSource S :=
  mkGridSource (mWidth g) (mHeight g) (mDepth g)
    (mPosXScale g) (mPosYScale g) (mPosZScale g)
    (mTrilinearValue g) (mTrilinearGradient g) (mSobelGradient g)
    (mVolumeSpaceToWorldSpaceFactor g) s.

(** The three dimension members are [int]s. *)
Definition int_dims {S} (g : GridSource S) : Prop :=
  (mWidth g <= INT_MAX /\ mHeight g <= INT_MAX /\ mDepth g <= INT_MAX)%Z.

(** Option bind, for the partial conversions. *)
Definition obind {A B} (o : option A) (k : A -> option B) : option B :=
  match o with Some a => k a | None => None end.

Notation "'let?' x ':=' o 'in' k" := (obind o (fun x => k))
  (at level 10, x name, o at level 100, k at level 200).

(* ================================================================== *)
(** ** Bounds / intersection *)

Section Intersection.
Context {S : Type} {P : RayBoxPrimitives}.

Definition gridBox (g : GridSource S) : AxisAlignedBox :=
  AxisAlignedBox_of 0 0 0
    (of_int (mWidth g)) (of_int (mHeight g)) (of_int (mDepth g)).

Definition getIntersectionStart (g : GridSource S) (ray : Ray) (maxDistance : Real)
  : Vector3 :=
  let box := gridBox g in
  if box_contains box (getOrigin ray) then getOrigin ray
  else
    let intersection := ray_intersects ray box in
    if fst intersection then
      let direction := normalisedCopy (getDirection ray) in
      vadd (getOrigin ray) (vscale direction (snd intersection))
    else getOrigin ray.

Definition getIntersectionEnd (g : GridSource S) (ray : Ray) (maxDistance : Real)
  : Vector3 :=
  let box := gridBox g in
  let direction := normalisedCopy (getDirection ray) in
  let invertedDirection := vscale_l (-(1)) direction in
  let origin := vadd (getOrigin ray) (vscale direction (length (getSize box))) in
  let inverted := mkRay origin invertedDirection in
  let intersection := ray_intersects inverted box in
  if fst intersection then
    vadd origin (vscale invertedDirection (snd intersection))
  else vadd (getOrigin ray) (vscale direction maxDistance).

(** [ray.getPoint(t)] *)
Definition ray_point (r : Ray) (t : Real) : Vector3 :=
  vadd (getOrigin r) (vscale (getDirection r) t).

(** A point of the closed box [0,width]x[0,height]x[0,depth]. *)
Definition inside_box (g : GridSource S) (v : Vector3) : Prop :=
  0 <= vx v <= of_int (mWidth g) /\
  0 <= vy v <= of_int (mHeight g) /\
  0 <= vz v <= of_int (mDepth g).

(** The reverse ray of [getIntersectionEnd]: it starts one box diagonal
    down the ray and runs backwards. *)
Definition reverseRay (g : GridSource S) (ray : Ray) : Ray :=
  let direction := normalisedCopy (getDirection ray) in
  mkRay (vadd (getOrigin ray) (vscale direction (length (getSize (gridBox g)))))
        (vscale_l (-(1)) direction).

(** The ray/box test reports a hit on [r] only if some point of [r] is in
    the box. *)
Definition hit_is_sound (r : Ray) (b : AxisAlignedBox) : Prop :=
  fst (ray_intersects r b) = true ->
  exists t, 0 <= t /\ box_contains b (ray_point r t) = true.

(** The whole line through the ray misses the box. *)
Definition line_misses (r : Ray) (b : AxisAlignedBox) : Prop :=
  forall t, box_contains b (ray_point r t) = false.

End Intersection.

(* ================================================================== *)
(** ** Field evaluation *)

Section Evaluation.
Context {S : Type} `{GridStorage S}.

Definition scaledPosition (g : GridSource S) (position : Vector3) : Vector3 :=
  mkVector3 (vx position * mPosXScale g)
            (vy position * mPosYScale g)
            (vz position * mPosZScale g).

(** The blend of [getValue], with the source's grouping of the terms. *)
Definition blend (f000 f100 f010 f001 f101 f011 f110 f111 dX dY dZ : Real) : Real :=
  let oneMinX := 1 - dX in
  let oneMinY := 1 - dY in
  let oneMinZ := 1 - dZ in
  let oneMinXoneMinY := oneMinX * oneMinY in
  let dXOneMinY := dX * oneMinY in
  oneMinZ * (f000 * oneMinXoneMinY
    + f100 * dXOneMinY
    + f010 * oneMinX * dY)
  + dZ * (f001 * oneMinXoneMinY
    + f101 * dXOneMinY
    + f011 * oneMinX * dY)
  + dX * dY * (f110 * oneMinZ
    + f111 * dZ).

Definition getValue (g : GridSource S) (position : Vector3) : option Real :=
  let sp := scaledPosition g position in
  let st := mStorage g in
  if mTrilinearValue g then
    let? x0 := to_size_t (vx sp) in
    let? x1 := to_size_t (ceil (vx sp)) in
    let? y0 := to_size_t (vy sp) in
    let? y1 := to_size_t (ceil (vy sp)) in
    let? z0 := to_size_t (vz sp) in
    let? z1 := to_size_t (ceil (vz sp)) in
    let dX := vx sp - of_int x0 in
    let dY := vy sp - of_int y0 in
    let dZ := vz sp - of_int z0 in
    let f000 := getVolumeGridValue st x0 y0 z0 in
    let f100 := getVolumeGridValue st x1 y0 z0 in
    let f010 := getVolumeGridValue st x0 y1 z0 in
    let f001 := getVolumeGridValue st x0 y0 z1 in
    let f101 := getVolumeGridValue st x1 y0 z1 in
    let f011 := getVolumeGridValue st x0 y1 z1 in
    let f110 := getVolumeGridValue st x1 y1 z0 in
    let f111 := getVolumeGridValue st x1 y1 z1 in
    Some (blend f000 f100 f010 f001 f101 f011 f110 f111 dX dY dZ)
  else
    let? x := to_size_t (vx sp + (1#2)) in
    let? y := to_size_t (vy sp + (1#2)) in
    let? z := to_size_t (vz sp + (1#2)) in
    Some (getVolumeGridValue st x y z).

(** One linear interpolation; [blend] amounts to three nested ones. *)
Definition lerp (a b d : Real) : Real := (1 - d) * a + d * b.

(** The same blend on vectors: [Vector3 * Real], [Real * Vector3] and
    [Vector3 + Vector3] work componentwise, so each component of the
    blended normal is [blend] of the corners' components. *)
Definition vblend (f000 f100 f010 f001 f101 f011 f110 f111 : Vector3)
           (dX dY dZ : Real) : Vector3 :=
  mkVector3
    (blend (vx f000) (vx f100) (vx f010) (vx f001)
           (vx f101) (vx f011) (vx f110) (vx f111) dX dY dZ)
    (blend (vy f000) (vy f100) (vy f010) (vy f001)
           (vy f101) (vy f011) (vy f110) (vy f111) dX dY dZ)
    (blend (vz f000) (vz f100) (vz f010) (vz f001)
           (vz f101) (vz f011) (vz f110) (vz f111) dX dY dZ).

(** The [normal] local of [getValueAndGradient], up to the return. *)
Definition getNormal (g : GridSource S) (position : Vector3) : option Vector3 :=
  let sp := scaledPosition g position in
  let st := mStorage g in
  let grad := getGradient (mSobelGradient g) st in
  if mTrilinearGradient g then
    let? x0 := to_size_t (vx sp) in
    let? x1 := to_size_t (ceil (vx sp)) in
    let? y0 := to_size_t (vy sp) in
    let? y1 := to_size_t (ceil (vy sp)) in
    let? z0 := to_size_t (vz sp) in
    let? z1 := to_size_t (ceil (vz sp)) in
    let dX := vx sp - of_int x0 in
    let dY := vy sp - of_int y0 in
    let dZ := vz sp - of_int z0 in
    let f000 := grad x0 y0 z0 in
    let f100 := grad x1 y0 z0 in
    let f010 := grad x0 y1 z0 in
    let f001 := grad x0 y0 z1 in
    let f101 := grad x1 y0 z1 in
    let f011 := grad x0 y1 z1 in
    let f110 := grad x1 y1 z0 in
    let f111 := grad x1 y1 z1 in
    let normal := vblend f000 f100 f010 f001 f101 f011 f110 f111 dX dY dZ in
    Some (vscale normal (-(1)))
  else
    let? x := to_size_t (vx sp + (1#2)) in
    let? y := to_size_t (vy sp + (1#2)) in
    let? z := to_size_t (vz sp + (1#2)) in
    let normal := grad x y z in
    Some (vscale normal (-(1))).

Definition getValueAndGradient (g : GridSource S) (position : Vector3)
  : option Vector4 :=
  let? normal := getNormal g position in
  let? value := getValue g position in
  Some (mkVector4 (vx normal) (vy normal) (vz normal) value).

(** The lattice points whose gradient [getValueAndGradient] fetches: the
    eight corners of lines 111-118, or the single point of line 139. *)
Definition gradientPoints (g : GridSource S) (position : Vector3)
  : list (Z * Z * Z) :=
  let sp := scaledPosition g position in
  if mTrilinearGradient g then
    match to_size_t (vx sp), to_size_t (ceil (vx sp)),
          to_size_t (vy sp), to_size_t (ceil (vy sp)),
          to_size_t (vz sp), to_size_t (ceil (vz sp)) with
    | Some x0, Some x1, Some y0, Some y1, Some z0, Some z1 =>
        [(x0, y0, z0); (x1, y0, z0); (x0, y1, z0); (x0, y0, z1);
         (x1, y0, z1); (x0, y1, z1); (x1, y1, z0); (x1, y1, z1)]
    | _, _, _, _, _, _ => []
    end
  else
    match to_size_t (vx sp + (1#2)), to_size_t (vy sp + (1#2)),
          to_size_t (vz sp + (1#2)) with
    | Some x, Some y, Some z => [(x, y, z)]
    | _, _, _ => []
    end.

(** A position whose scaled coordinates lie in the lattice box. *)
Definition in_lattice (g : GridSource S) (position : Vector3) : Prop :=
  let sp := scaledPosition g position in
  0 <= vx sp <= of_int (mWidth g) /\
  0 <= vy sp <= of_int (mHeight g) /\
  0 <= vz sp <= of_int (mDepth g).

Definition getWidth (g : GridSource S) : Z := mWidth g.
Definition getHeight (g : GridSource S) : Z := mHeight g.
Definition getDepth (g : GridSource S) : Z := mDepth g.
Definition getVolumeSpaceToWorldSpaceFactor (g : GridSource S) : Real :=
  mVolumeSpaceToWorldSpaceFactor g.

End Evaluation.

(* ================================================================== *)
(** ** Region bake *)

(** How a call ends: it returns, a C++ exception propagates out of it, or
    the execution has left defined behaviour (a conversion out of range). *)
Inductive outcome (A : Type) : Type :=
| Returns (a : A)
| Throws
| Undefined.

Arguments Returns {A}. Arguments Throws {A}. Arguments Undefined {A}.

Definition of_option {A} (o : option A) : outcome A :=
  match o with Some a => Returns a | None => Undefined end.

(** [Source::getValue], the capability the combination operator works on. *)
Definition Source : Type := Vector3 -> outcome Real.

(** The two [Source*] the bake hands to the operator. *)
Inductive SourceRef : Type := ThisGrid | OtherSource.

(** The combination operator: its two operand pointers and its [getValue],
    an opaque callback over what the operands bound at the time answer. *)
Record CSGOperationSource : Type := mkOperation {
  mA : option SourceRef;
  mB : option SourceRef;
  evaluate : option Source -> option Source -> Vector3 -> outcome Real
}.

Definition setSourceA (r : SourceRef) (op : CSGOperationSource) : CSGOperationSource :=
  mkOperation (Some r) (mB op) (evaluate op).

Definition setSourceB (r : SourceRef) (op : CSGOperationSource) : CSGOperationSource :=
  mkOperation (mA op) (Some r) (evaluate op).

(** The six bounds of the iteration box. *)
Record Box : Type := mkBounds {
  xStart : Z; xEnd : Z; yStart : Z; yEnd : Z; zStart : Z; zEnd : Z
}.

Definition in_box (b : Box) (x y z : Z) : Prop :=
  (xStart b <= x < xEnd b /\ yStart b <= y < yEnd b /\ zStart b <= z < zEnd b)%Z.

Section Bake.
Context {S : Type} `{GridStorage S}.

(** The calls the bake makes on its collaborators, in order: the operator's
    [getValue] (with the state of [this] it can observe through operand A)
    and the sample writer. *)
Inductive Event : Type :=
| EvGetValue (this : GridSource S) (pos : Vector3)
| EvSetValue (x y z : Z) (value : Real).

(** The objects [combineWithSource] works on. *)
Record World : Type := mkWorld {
  grid : GridSource S;
  operation : CSGOperationSource;
  events : list Event
}.

(** State passing with an outcome; the state survives an abnormal exit. *)
Definition M (A : Type) : Type := World -> World * outcome A.

Definition ret {A} (a : A) : M A := fun w => (w, Returns a).

Definition bind {A B} (m : M A) (k : A -> M B) : M B := fun w =>
  match m w with
  | (w', Returns a) => k a w'
  | (w', Throws) => (w', Throws)
  | (w', Undefined) => (w', Undefined)
  end.

Definition getGrid : M (GridSource S) := fun w => (w, Returns (grid w)).

Definition modifyGrid (f : GridSource S -> GridSource S) : M unit := fun w =>
  (mkWorld (f (grid w)) (operation w) (events w), Returns tt).

Definition modifyOperation (f : CSGOperationSource -> CSGOperationSource) : M unit :=
  fun w => (mkWorld (grid w) (f (operation w)) (events w), Returns tt).

Definition emit (e : Event) : M unit := fun w =>
  (mkWorld (grid w) (operation w) (events w ++ [e]), Returns tt).

Definition liftOutcome {A} (o : outcome A) : M A := fun w => (w, o).

End Bake.

Arguments Event S : clear implicits.
Arguments World S : clear implicits.
Arguments M S A : clear implicits.

Declare Scope bake_scope.
Delimit Scope bake_scope with bake.
Notation "x <- m ;; k" := (bind m (fun x => k))
  (at level 61, m at next level, right associativity) : bake_scope.
Notation "m ;; k" := (bind m (fun _ => k))
  (at level 61, right associativity) : bake_scope.

Section BakeLoop.
Context {S : Type} `{GridStorage S}.
Local Open Scope bake_scope.

(** What a pointer held by the operator answers when dereferenced. *)
Definition deref (w : World S) (source : Source) (r : SourceRef) : Source :=
  match r with
  | ThisGrid => fun p => of_option (getValue (grid w) p)
  | OtherSource => source
  end.

(** [operation->getValue(pos)] *)
Definition operation_getValue (source : Source) (pos : Vector3) : M S Real :=
  fun w =>
    let op := operation w in
    (mkWorld (grid w) op (events w ++ [EvGetValue (grid w) pos]),
     evaluate op (option_map (deref w source) (mA op))
                 (option_map (deref w source) (mB op)) pos).

(** [setVolumeGridValue(x, y, z, value)] on [this] *)
Definition this_setVolumeGridValue (x y z : Z) (value : Real) : M S unit :=
  emit (EvSetValue x y z value) ;;
  modifyGrid (fun g => set_mStorage (setVolumeGridValue (mStorage g) x y z value) g).

(** [for (i = lo; i < hi; ++i) body] *)
Fixpoint for_count (n : nat) (i : Z) (body : Z -> M S unit) : M S unit :=
  match n with
  | O => ret tt
  | Datatypes.S n' => body i ;; for_count n' (i + 1)%Z body
  end.

Definition for_range (lo hi : Z) (body : Z -> M S unit) : M S unit :=
  for_count (Z.to_nat (hi - lo)) lo body.

(** Lines 237-242: the six clamped bounds. *)
Definition iterationBox (g : GridSource S) (center : Vector3) (radius : Real)
  : option Box :=
  let? xs := to_int (vx center - radius) in
  let? xe := to_int (vx center + radius) in
  let? ys := to_int (vy center - radius) in
  let? ye := to_int (vy center + radius) in
  let? zs := to_int (vz center - radius) in
  let? ze := to_int (vz center + radius) in
  Some (mkBounds (Clamp xs 0 (mWidth g)) (Clamp xe 0 (mWidth g))
                 (Clamp ys 0 (mHeight g)) (Clamp ye 0 (mHeight g))
                 (Clamp zs 0 (mDepth g)) (Clamp ze 0 (mDepth g))).

(** Lines 244-257: the three nested loops. *)
Definition bakeLoop (source : Source) (b : Box)
           (worldWidthScale worldHeightScale worldDepthScale : Real) : M S unit :=
  for_range (zStart b) (zEnd b) (fun z =>
    for_range (yStart b) (yEnd b) (fun y =>
      for_range (xStart b) (xEnd b) (fun x =>
        let pos := mkVector3 (of_int x * worldWidthScale)
                             (of_int y * worldHeightScale)
                             (of_int z * worldDepthScale) in
        value <- operation_getValue source pos ;;
        this_setVolumeGridValue x y z value))).

(** [combineWithSource].  The operator's result goes through a [float]
    before it is stored, which the exact numbers do not show.  [1 / scale]
    is the division of [Q], 0 for a zero scale where the machine gives an
    infinity; it only reaches the positions handed to the operator. *)
Definition combineWithSource (source : Source) (center : Vector3) (radius : Real)
  : M S unit :=
  g <- getGrid ;;
  let worldWidthScale := 1 / mPosXScale g in
  let worldHeightScale := 1 / mPosYScale g in
  let worldDepthScale := 1 / mPosZScale g in
  modifyOperation (setSourceA ThisGrid) ;;
  modifyOperation (setSourceB OtherSource) ;;
  let oldTrilinearValue := mTrilinearValue g in
  modifyGrid (set_mTrilinearValue false) ;;
  b <- liftOutcome (of_option (iterationBox g center radius)) ;;
  bakeLoop source b worldWidthScale worldHeightScale worldDepthScale ;;
  modifyGrid (set_mTrilinearValue oldTrilinearValue).

(** The iteration box as the specification words it: centre plus or minus
    radius is taken to lattice index space with the axis's scale factor,
    then clamped. *)
Definition spec_iterationBox (g : GridSource S) (center : Vector3) (radius : Real)
  : option Box :=
  let? xs := to_int ((vx center - radius) * mPosXScale g) in
  let? xe := to_int ((vx center + radius) * mPosXScale g) in
  let? ys := to_int ((vy center - radius) * mPosYScale g) in
  let? ye := to_int ((vy center + radius) * mPosYScale g) in
  let? zs := to_int ((vz center - radius) * mPosZScale g) in
  let? ze := to_int ((vz center + radius) * mPosZScale g) in
  Some (mkBounds (Clamp xs 0 (mWidth g)) (Clamp xe 0 (mWidth g))
                 (Clamp ys 0 (mHeight g)) (Clamp ye 0 (mHeight g))
                 (Clamp zs 0 (mDepth g)) (Clamp ze 0 (mDepth g))).

(** The coordinates written, in order. *)
Fixpoint writes (l : list (Event S)) : list (Z * Z * Z) :=
  match l with
  | [] => []
  | EvSetValue x y z _ :: l' => (x, y, z) :: writes l'
  | EvGetValue _ _ :: l' => writes l'
  end.

(** The states of [this] the operator was called on, in order. *)
Fixpoint observed (l : list (Event S)) : list (GridSource S) :=
  match l with
  | [] => []
  | EvGetValue g _ :: l' => g :: observed l'
  | EvSetValue _ _ _ _ :: l' => observed l'
  end.

(** The storage after the logged writes, applied in order. *)
Definition replay (l : list (Event S)) (s : S) : S :=
  fold_left (fun s e =>
               match e with
               | EvSetValue x y z value => setVolumeGridValue s x y z value
               | EvGetValue _ _ => s
               end) l s.

(** The integers [i], [i+1], ... ([n] of them), and those of [lo, hi). *)
Fixpoint zseq (i : Z) (n : nat) : list Z :=
  match n with
  | O => []
  | Datatypes.S n' => i :: zseq (i + 1)%Z n'
  end.

Definition range (lo hi : Z) : list Z := zseq lo (Z.to_nat (hi - lo)).

(** The lattice points of a box in the order the loops visit them: z
    outermost, x innermost. *)
Definition boxPoints (b : Box) : list (Z * Z * Z) :=
  flat_map (fun z =>
    flat_map (fun y =>
      map (fun x => (x, y, z)) (range (xStart b) (xEnd b)))
      (range (yStart b) (yEnd b)))
    (range (zStart b) (zEnd b)).

Definition in_box3 (b : Box) (c : Z * Z * Z) : Prop :=
  let '(x, y, z) := c in in_box b x y z.

(** A lattice coordinate of [g]: start bounds inclusive, end bounds
    exclusive. *)
Definition in_grid (g : GridSource S) (c : Z * Z * Z) : Prop :=
  let '(x, y, z) := c in
  (0 <= x < mWidth g /\ 0 <= y < mHeight g /\ 0 <= z < mDepth g)%Z.

(** Everything of a grid but its value flag and its storage. *)
Definition same_config (g g' : GridSource S) : Prop :=
  mWidth g' = mWidth g /\ mHeight g' = mHeight g /\ mDepth g' = mDepth g /\
  mPosXScale g' = mPosXScale g /\ mPosYScale g' = mPosYScale g /\
  mPosZScale g' = mPosZScale g /\
  mVolumeSpaceToWorldSpaceFactor g' = mVolumeSpaceToWorldSpaceFactor g /\
  mTrilinearGradient g' = mTrilinearGradient g /\
  mSobelGradient g' = mSobelGradient g.

(** The samples outside [b] read the same in [g] and [g']. *)
Definition same_outside (b : Box) (g g' : GridSource S) : Prop :=
  forall x y z, ~ in_box b x y z ->
    getVolumeGridValue (mStorage g') x y z = getVolumeGridValue (mStorage g) x y z.

(** A property of worlds kept by a computation, however it ends. *)
Definition preserves {A} (I : World S -> Prop) (m : M S A) : Prop :=
  forall w w' o, I w -> m w = (w', o) -> I w'.

(** What holds of the world all along the three loops started in [w0]:
    the value flag is clear, the configuration is that of [w0], and the
    calls made since then wrote inside [b] only, let the operator observe
    a clear value flag only, and account for the whole change of the
    storage. *)
Definition bake_inv (b : Box) (w0 w : World S) : Prop :=
  mTrilinearValue (grid w) = false /\
  same_config (grid w0) (grid w) /\
  operation w = operation w0 /\
  exists l, events w = events w0 ++ l /\
            Forall (in_box3 b) (writes l) /\
            Forall (fun g => mTrilinearValue g = false) (observed l) /\
            mStorage (grid w) = replay l (mStorage (grid w0)).

(** The world at line 235: operands bound, value flag cleared. *)
Definition bakeStart (w0 : World S) : World S :=
  mkWorld (set_mTrilinearValue false (grid w0))
          (setSourceB OtherSource (setSourceA ThisGrid (operation w0)))
          (events w0).

(** The operator's [getValue] returns whatever it is asked. *)
Definition never_fails (op : CSGOperationSource) : Prop :=
  forall a b p, exists v, evaluate op a b p = Returns v.

End BakeLoop.

(* ================================================================== *)
(** ** Concrete collaborators for the examples *)

Module Dense.

(** A dense storage: one sample per lattice coordinate. *)
Definition Store : Type := Z -> Z -> Z -> Real.

Definition read (s : Store) (x y z : Z) : Real := s x y z.

Definition write (s : Store) (x y z : Z) (v : Real) : Store :=
  fun x' y' z' =>
    if ((x =? x') && (y =? y') && (z =? z'))%Z then v else s x' y' z'.

(** Central differences, whatever the Sobel flag. *)
Definition gradient (sobel : bool) (s : Store) (x y z : Z) : Vector3 :=
  mkVector3 (s (x + 1)%Z y z - s (x - 1)%Z y z)
            (s x (y + 1)%Z z - s x (y - 1)%Z z)
            (s x y (z + 1)%Z - s x y (z - 1)%Z).

#[export] Instance storage : GridStorage Store :=
  {| getVolumeGridValue := read;
     setVolumeGridValue := write;
     getGradient := gradient |}.

(** A field that increases along +x only. *)
Definition ramp : Store := fun x _ _ => inject_Z x.

(** All samples 1 except the one at (2,2,2), which is 5. *)
Definition spike : Store := fun x y z =>
  if ((x =? 2) && (y =? 2) && (z =? 2))%Z then 5 else 1.

(** A 4x4x4 lattice with the given scale on the three axes. *)
Definition grid4 (scale : Real) (trilinearValue trilinearGradient : bool) (s : Store)
  : GridSource Store :=
  mkGridSource 4 4 4 scale scale scale trilinearValue trilinearGradient false 1 s.

(** An operator whose [getValue] throws. *)
Definition throwingOperation : CSGOperationSource :=
  mkOperation None None (fun _ _ _ => Throws).

(** The union of two fields: the larger of the two values. *)
Definition unionOperation : CSGOperationSource :=
  mkOperation None None (fun a b p =>
    match a, b with
    | Some fa, Some fb =>
        match fa p, fb p with
        | Returns va, Returns vb => Returns (if Qle_bool va vb then vb else va)
        | Throws, _ | Returns _, Throws => Throws
        | _, _ => Undefined
        end
    | _, _ => Undefined
    end).

(** The other field of the examples: the constant 7. *)
Definition seven : Source := fun _ => Returns 7.

Definition world0 (g : GridSource Store) (op : CSGOperationSource) : World Store :=
  mkWorld g op [].

(** A 2x3x6 lattice, whose box diagonal has length 7. *)
Definition grid236 : GridSource Store :=
  mkGridSource 2 3 6 1 1 1 true true false 1 ramp.

(** Ray primitives for rays that run along the x axis with a unit
    direction, on the 2x3x6 box: normalisation leaves the direction as it
    is, the box diagonal is 7, and the ray/box test looks at the x slab. *)
Definition xRayIntersects (r : Ray) (b : AxisAlignedBox) : bool * Real :=
  let o := getOrigin r in
  let d := getDirection r in
  let lo := mMinimum b in
  let hi := mMaximum b in
  if Qeq_bool (vy d) 0 && Qeq_bool (vz d) 0 &&
     Qle_bool (vy lo) (vy o) && Qle_bool (vy o) (vy hi) &&
     Qle_bool (vz lo) (vz o) && Qle_bool (vz o) (vz hi) &&
     Qle_bool (vx lo) (vx hi)
  then
    if Qle_bool (vx lo) (vx o) && Qle_bool (vx o) (vx hi) then (true, 0)
    else if Qle_bool (vx o) (vx lo) && negb (Qle_bool (vx d) 0)
         then (true, (vx lo - vx o) / vx d)
    else if Qle_bool (vx hi) (vx o) && negb (Qle_bool 0 (vx d))
         then (true, (vx hi - vx o) / vx d)
    else (false, 0)
  else (false, 0).

Definition xRays : RayBoxPrimitives :=
  {| normalisedCopy := fun v => v;
     length := fun _ => 7;
     ray_intersects := xRayIntersects |}.

End Dense.

(* ================================================================== *)
(** ** Further notions, for the properties beyond the sampling contract *)

Section FurtherNotions.
Context {S : Type} `{GridStorage S}.

(** The lattice points whose sample [getValue] fetches: the eight corners
    of lines 164-171, or the single point of line 195. *)
Definition valuePoints (g : GridSource S) (position : Vector3) : list (Z * Z * Z) :=
  let sp := scaledPosition g position in
  if mTrilinearValue g then
    match to_size_t (vx sp), to_size_t (ceil (vx sp)),
          to_size_t (vy sp), to_size_t (ceil (vy sp)),
          to_size_t (vz sp), to_size_t (ceil (vz sp)) with
    | Some x0, Some x1, Some y0, Some y1, Some z0, Some z1 =>
        [(x0, y0, z0); (x1, y0, z0); (x0, y1, z0); (x0, y0, z1);
         (x1, y0, z1); (x0, y1, z1); (x1, y1, z0); (x1, y1, z1)]
    | _, _, _, _, _, _ => []
    end
  else
    match to_size_t (vx sp + (1#2)), to_size_t (vy sp + (1#2)),
          to_size_t (vz sp + (1#2)) with
    | Some x, Some y, Some z => [(x, y, z)]
    | _, _, _ => []
    end.

(** Where the conversions of [getValue] are defined: on each axis the
    scaled coordinate is above -1 and at most [SIZE_MAX] in the trilinear
    branch, and between -3/2 and [SIZE_MAX] + 1/2 in the nearest branch. *)
Definition value_domain (g : GridSource S) (position : Vector3) : Prop :=
  let sp := scaledPosition g position in
  let ok (r : Real) :=
    if mTrilinearValue g then -(1) < r /\ r <= of_int SIZE_MAX
    else -(3#2) < r /\ r < of_int SIZE_MAX + (1#2) in
  ok (vx sp) /\ ok (vy sp) /\ ok (vz sp).

(** Lines 250-252: the world position of a lattice point, through the
    inverted scale factors. *)
Definition latticeToWorld (g : GridSource S) (c : Z * Z * Z) : Vector3 :=
  let '(x, y, z) := c in
  mkVector3 (of_int x * (1 / mPosXScale g))
            (of_int y * (1 / mPosYScale g))
            (of_int z * (1 / mPosZScale g)).

(** A [Real] whose conversion to [int] is defined: its truncation lies
    between [INT_MIN] and [INT_MAX]. *)
Definition int_convertible (r : Real) : Prop :=
  of_int INT_MIN - 1 < r /\ r < of_int INT_MAX + 1.

(** The position the loop body computes for a lattice point, given the
    three inverted scale factors. *)
Definition indexPosition (sx sy sz : Real) (c : Z * Z * Z) : Vector3 :=
  let '(x, y, z) := c in
  mkVector3 (of_int x * sx) (of_int y * sy) (of_int z * sz).

(** What the operator sees of [this] through operand A. *)
Definition thisView (g : GridSource S) : Source :=
  fun p => of_option (getValue g p).

(** Lines 250-254: the body of the innermost loop at one lattice point. *)
Definition bakeStep (source : Source) (sx sy sz : Real) (c : Z * Z * Z) : M S unit :=
  let '(x, y, z) := c in
  bind (operation_getValue source
          (mkVector3 (of_int x * sx) (of_int y * sy) (of_int z * sz)))
       (fun value => this_setVolumeGridValue x y z value).

(** One pass over a list, stopping at the first abnormal exit. *)
Fixpoint for_each {A : Type} (l : list A) (body : A -> M S unit) : M S unit :=
  match l with
  | [] => ret tt
  | a :: l' => bind (body a) (fun _ => for_each l' body)
  end.

(** The positions the operator was evaluated at, in order. *)
Fixpoint evaluated (l : list (Event S)) : list Vector3 :=
  match l with
  | [] => []
  | EvGetValue _ pos :: l' => pos :: evaluated l'
  | EvSetValue _ _ _ _ :: l' => evaluated l'
  end.

(** The sample of [g] at a lattice point. *)
Definition sampleAt (g : GridSource S) (c : Z * Z * Z) : Real :=
  let '(x, y, z) := c in getVolumeGridValue (mStorage g) x y z.

End FurtherNotions.

(** An operator that answers 3 wherever it is asked. *)
Definition fillOperation : CSGOperationSource :=
  mkOperation None None (fun _ _ _ => Returns 3).

(* ================================================================== *)
(** ** Conversions *)

Section ConversionFacts.

Lemma trunc_comp (a b : Real) : a == b -> trunc a = trunc b.
Proof.
  intros E. unfold trunc. rewrite E.
  destruct (Qle_bool 0 b); [apply Qfloor_comp | apply Qceiling_comp]; exact E.
Qed.

Lemma trunc_of_int (n : Z) : trunc (of_int n) = n.
Proof.
  unfold trunc, of_int.
  destruct (Qle_bool 0 (inject_Z n)); [apply Qfloor_Z | apply Qceiling_Z].
Qed.

Lemma trunc_nonneg (r : Real) :
  0 <= r -> (0 <= trunc r)%Z /\ inject_Z (trunc r) <= r /\ r < inject_Z (trunc r) + 1.
Proof.
  intros Hr. unfold trunc.
  apply Qle_bool_iff in Hr. rewrite Hr. apply Qle_bool_iff in Hr.
  split; [| split].
  - change 0%Z with (Qfloor 0). apply Qfloor_resp_le. exact Hr.
  - apply Qfloor_le.
  - rewrite <- (inject_Z_plus _ 1). apply Qlt_floor.
Qed.

Lemma to_size_t_Some (r : Real) (n : Z) :
  to_size_t r = Some n -> trunc r = n /\ (0 <= n <= SIZE_MAX)%Z.
Proof.
  unfold to_size_t. intros E.
  destruct ((0 <=? trunc r)%Z && (trunc r <=? SIZE_MAX)%Z) eqn:B; [| discriminate].
  injection E as <-. apply andb_true_iff in B. destruct B as [B1 B2].
  apply Z.leb_le in B1. apply Z.leb_le in B2. auto.
Qed.

Lemma to_size_t_intro (r : Real) (n : Z) :
  trunc r = n -> (0 <= n <= SIZE_MAX)%Z -> to_size_t r = Some n.
Proof.
  intros <- [B1 B2]. unfold to_size_t.
  apply Z.leb_le in B1. apply Z.leb_le in B2. rewrite B1, B2. reflexivity.
Qed.

Lemma to_size_t_integral (r : Real) (n : Z) :
  r == of_int n -> (0 <= n <= SIZE_MAX)%Z -> to_size_t r = Some n.
Proof.
  intros E B. apply to_size_t_intro; [| exact B].
  rewrite (trunc_comp _ _ E). apply trunc_of_int.
Qed.

Lemma ceil_integral (r : Real) (n : Z) : r == of_int n -> ceil r == of_int n.
Proof.
  intros E. unfold ceil, of_int in *. rewrite (Qceiling_comp _ _ E), Qceiling_Z.
  reflexivity.
Qed.

Lemma to_int_Some (r : Real) (n : Z) :
  to_int r = Some n -> trunc r = n /\ (INT_MIN <= n <= INT_MAX)%Z.
Proof.
  unfold to_int. intros E.
  destruct ((INT_MIN <=? trunc r)%Z && (trunc r <=? INT_MAX)%Z) eqn:B; [| discriminate].
  injection E as <-. apply andb_true_iff in B. destruct B as [B1 B2].
  apply Z.leb_le in B1. apply Z.leb_le in B2. auto.
Qed.

Lemma to_int_comp (a b : Real) : a == b -> to_int a = to_int b.
Proof. intros E. unfold to_int. rewrite (trunc_comp _ _ E). reflexivity. Qed.

Lemma Clamp_range (v lo hi : Z) : (lo <= Clamp v lo hi <= Z.max lo hi)%Z.
Proof. unfold Clamp. lia. Qed.

(** An index between two bounds clamped into [0, dim] is below [dim]. *)
Lemma Clamp_between (s e dim x : Z) :
  (Clamp s 0 dim <= x < Clamp e 0 dim)%Z -> (0 <= x < dim)%Z.
Proof. unfold Clamp. lia. Qed.

End ConversionFacts.

(* ================================================================== *)
(** ** Field evaluation: value *)

Section ValueFacts.
Context {S : Type} `{GridStorage S}.

(** With the three offsets at zero the blend is its first corner. *)
Lemma blend_zero (f000 f100 f010 f001 f101 f011 f110 f111 dX dY dZ : Real) :
  dX == 0 -> dY == 0 -> dZ == 0 ->
  blend f000 f100 f010 f001 f101 f011 f110 f111 dX dY dZ == f000.
Proof.
  intros EX EY EZ. unfold blend. cbv zeta. rewrite EX, EY, EZ. ring.
Qed.

Lemma getValue_trilinear_integral (g : GridSource S) (p : Vector3) (x y z : Z) :
  mTrilinearValue g = true ->
  vx (scaledPosition g p) == of_int x ->
  vy (scaledPosition g p) == of_int y ->
  vz (scaledPosition g p) == of_int z ->
  (0 <= x <= SIZE_MAX)%Z -> (0 <= y <= SIZE_MAX)%Z -> (0 <= z <= SIZE_MAX)%Z ->
  exists v, getValue g p = Some v /\ v == getVolumeGridValue (mStorage g) x y z.
Proof.
  intros T EX EY EZ BX BY BZ. unfold getValue. rewrite T.
  rewrite (to_size_t_integral _ _ EX BX), (to_size_t_integral _ _ (ceil_integral _ _ EX) BX).
  rewrite (to_size_t_integral _ _ EY BY), (to_size_t_integral _ _ (ceil_integral _ _ EY) BY).
  rewrite (to_size_t_integral _ _ EZ BZ), (to_size_t_integral _ _ (ceil_integral _ _ EZ) BZ).
  cbn [obind]. eexists. split; [reflexivity |].
  apply blend_zero; [rewrite EX | rewrite EY | rewrite EZ]; ring.
Qed.

Lemma int_max_size_max : (INT_MAX <= SIZE_MAX)%Z.
Proof. unfold INT_MAX, SIZE_MAX. lia. Qed.

(** C4. With the trilinear value flag set, at a position whose scaled
    coordinates are the integers x, y, z, each within [0, dimension],
    [getValue] returns the stored sample at (x,y,z): floor and ceiling
    indices coincide, the offsets are zero and the blend is its first
    corner. *)
Theorem getValue_trilinear_at_lattice_point
        (g : GridSource S) (p : Vector3) (x y z : Z) :
  mTrilinearValue g = true ->
  int_dims g ->
  vx (scaledPosition g p) == of_int x ->
  vy (scaledPosition g p) == of_int y ->
  vz (scaledPosition g p) == of_int z ->
  (0 <= x <= mWidth g)%Z -> (0 <= y <= mHeight g)%Z -> (0 <= z <= mDepth g)%Z ->
  exists v, getValue g p = Some v /\ v == getVolumeGridValue (mStorage g) x y z.
Proof.
  intros T (DW & DH & DD) EX EY EZ BX BY BZ.
  pose proof int_max_size_max.
  apply getValue_trilinear_integral; auto; lia.
Qed.

(** The nearest lattice index of a non-negative coordinate. *)
Lemma to_size_t_half (r : Real) (n : Z) (d : Real) :
  r == of_int n + d -> 0 <= d + (1#2) -> d + (1#2) < 1 ->
  (0 <= n <= SIZE_MAX)%Z ->
  to_size_t (r + (1#2)) = Some n.
Proof.
  intros E D0 D1 B. apply to_size_t_intro; [| exact B].
  assert (Hn : 0 <= of_int n).
  { unfold of_int. change 0 with (inject_Z 0). rewrite <- Zle_Qle. lia. }
  destruct (trunc_nonneg (r + (1#2))) as (T0 & T1 & T2); [lra |].
  set (t := trunc (r + (1 # 2))) in *.
  assert (L1 : (t < n + 1)%Z).
  { rewrite Zlt_Qlt, inject_Z_plus. unfold of_int in *.
    change (inject_Z 1) with 1. lra. }
  assert (L2 : (n < t + 1)%Z).
  { rewrite Zlt_Qlt, inject_Z_plus. unfold of_int in *.
    change (inject_Z 1) with 1. lra. }
  lia.
Qed.


End ValueFacts.

(* ================================================================== *)
(** ** Field evaluation: gradient and the combined call *)

Section GradientFacts.
Context {S : Type} `{GridStorage S}.

Lemma blend_lerp (f000 f100 f010 f001 f101 f011 f110 f111 dX dY dZ : Real) :
  blend f000 f100 f010 f001 f101 f011 f110 f111 dX dY dZ ==
  lerp (lerp (lerp f000 f100 dX) (lerp f010 f110 dX) dY)
       (lerp (lerp f001 f101 dX) (lerp f011 f111 dX) dY) dZ.
Proof. unfold blend, lerp. ring. Qed.

(** On one axis either the offset lies in [0,1), or floor and ceiling
    index are both 0 (a coordinate between -1 and 0). *)
Lemma axis_cases (s : Real) (i0 i1 : Z) :
  to_size_t s = Some i0 -> to_size_t (ceil s) = Some i1 ->
  (0 <= s - of_int i0 /\ s - of_int i0 < 1) \/ i0 = i1.
Proof.
  intros E0 E1.
  apply to_size_t_Some in E0. destruct E0 as [T0 B0].
  apply to_size_t_Some in E1. destruct E1 as [T1 B1].
  destruct (Qlt_le_dec s 0) as [Neg | Pos].
  - right. unfold ceil in T1. fold (of_int (Qceiling s)) in T1.
    rewrite trunc_of_int in T1.
    unfold trunc in T0. destruct (Qle_bool 0 s) eqn:E.
    + apply Qle_bool_iff in E. lra.
    + assert (Hz : (Qceiling s <= 0)%Z).
      { change 0%Z with (Qceiling 0). apply Qceiling_resp_le. lra. }
      lia.
  - left. destruct (trunc_nonneg s Pos) as (_ & L1 & L2).
    rewrite T0 in L1, L2. unfold of_int. lra.
Qed.

Lemma axis_lerp_pos (s : Real) (i0 i1 : Z) (h : Z -> Real) :
  to_size_t s = Some i0 -> to_size_t (ceil s) = Some i1 ->
  0 < h i0 -> 0 < h i1 ->
  0 < lerp (h i0) (h i1) (s - of_int i0).
Proof.
  intros E0 E1 P0 P1. unfold lerp.
  destruct (axis_cases s i0 i1 E0 E1) as [[D0 D1] | <-].
  - set (d := s - of_int i0) in *.
    assert (0 < (1 - d) * h i0) by (apply Qmult_lt_0_compat; lra).
    assert (0 <= d * h i1) by (apply Qmult_le_0_compat; lra).
    lra.
  - assert (E : (1 - (s - of_int i0)) * h i0 + (s - of_int i0) * h i0 == h i0) by ring.
    rewrite E. exact P0.
Qed.

Lemma blend_pos (sx sy sz : Real) (x0 x1 y0 y1 z0 z1 : Z) (h : Z -> Z -> Z -> Real) :
  to_size_t sx = Some x0 -> to_size_t (ceil sx) = Some x1 ->
  to_size_t sy = Some y0 -> to_size_t (ceil sy) = Some y1 ->
  to_size_t sz = Some z0 -> to_size_t (ceil sz) = Some z1 ->
  (forall x y z, In (x, y, z)
      [(x0, y0, z0); (x1, y0, z0); (x0, y1, z0); (x0, y0, z1);
       (x1, y0, z1); (x0, y1, z1); (x1, y1, z0); (x1, y1, z1)] -> 0 < h x y z) ->
  0 < blend (h x0 y0 z0) (h x1 y0 z0) (h x0 y1 z0) (h x0 y0 z1)
            (h x1 y0 z1) (h x0 y1 z1) (h x1 y1 z0) (h x1 y1 z1)
            (sx - of_int x0) (sy - of_int y0) (sz - of_int z0).
Proof.
  intros X0 X1 Y0 Y1 Z0 Z1 Pos.
  rewrite blend_lerp.
  apply (axis_lerp_pos sz z0 z1
           (fun z => lerp (lerp (h x0 y0 z) (h x1 y0 z) (sx - of_int x0))
                          (lerp (h x0 y1 z) (h x1 y1 z) (sx - of_int x0))
                          (sy - of_int y0)) Z0 Z1);
    apply (axis_lerp_pos sy y0 y1
             (fun y => lerp (h x0 y _) (h x1 y _) (sx - of_int x0)) Y0 Y1);
    apply (axis_lerp_pos sx x0 x1 (fun x => h x _ _) X0 X1);
    apply Pos; cbn; tauto.
Qed.

Lemma blend_zeros (f000 f100 f010 f001 f101 f011 f110 f111 dX dY dZ : Real) :
  f000 == 0 -> f100 == 0 -> f010 == 0 -> f001 == 0 ->
  f101 == 0 -> f011 == 0 -> f110 == 0 -> f111 == 0 ->
  blend f000 f100 f010 f001 f101 f011 f110 f111 dX dY dZ == 0.
Proof.
  intros E1 E2 E3 E4 E5 E6 E7 E8. unfold blend. cbv zeta.
  rewrite E1, E2, E3, E4, E5, E6, E7, E8. ring.
Qed.

Lemma getValueAndGradient_Some (g : GridSource S) (p : Vector3) (v : Vector4) :
  getValueAndGradient g p = Some v ->
  exists n value, getNormal g p = Some n /\ getValue g p = Some value /\
                  v = mkVector4 (vx n) (vy n) (vz n) value.
Proof.
  unfold getValueAndGradient. intros E.
  destruct (getNormal g p) as [n |]; [| discriminate].
  destruct (getValue g p) as [value |]; [| discriminate].
  cbn in E. injection E as <-. eauto.
Qed.

(** C5. The first three components of [getValueAndGradient] are the
    negation of the reconstructed gradient: of the blend of the eight
    corner gradients when the gradient flag is set, of the single nearest
    gradient when it is clear.  So when the gradient accessor reports an
    increase purely along +x at every lattice point visited, the returned
    x component is negative (and the other two are zero). *)
Theorem getValueAndGradient_negates_gradient
        (g : GridSource S) (p : Vector3) (v : Vector4) :
  getValueAndGradient g p = Some v ->
  let sp := scaledPosition g p in
  let grad := getGradient (mSobelGradient g) (mStorage g) in
  (exists n : Vector3,
      ((mTrilinearGradient g = true /\
        exists x0 x1 y0 y1 z0 z1,
          to_size_t (vx sp) = Some x0 /\ to_size_t (ceil (vx sp)) = Some x1 /\
          to_size_t (vy sp) = Some y0 /\ to_size_t (ceil (vy sp)) = Some y1 /\
          to_size_t (vz sp) = Some z0 /\ to_size_t (ceil (vz sp)) = Some z1 /\
          n = vblend (grad x0 y0 z0) (grad x1 y0 z0) (grad x0 y1 z0) (grad x0 y0 z1)
                     (grad x1 y0 z1) (grad x0 y1 z1) (grad x1 y1 z0) (grad x1 y1 z1)
                     (vx sp - of_int x0) (vy sp - of_int y0) (vz sp - of_int z0))
       \/
       (mTrilinearGradient g = false /\
        exists x y z,
          to_size_t (vx sp + (1#2)) = Some x /\ to_size_t (vy sp + (1#2)) = Some y /\
          to_size_t (vz sp + (1#2)) = Some z /\ n = grad x y z))
      /\ v4x v == - vx n /\ v4y v == - vy n /\ v4z v == - vz n)
  /\
  ((forall x y z, In (x, y, z) (gradientPoints g p) ->
      0 < vx (grad x y z) /\ vy (grad x y z) == 0 /\ vz (grad x y z) == 0) ->
   v4x v < 0 /\ v4y v == 0 /\ v4z v == 0).
Proof.
  intros E sp grad.
  destruct (getValueAndGradient_Some g p v E) as (n & value & EN & _ & ->).
  clear E. cbn [v4x v4y v4z].
  unfold getNormal in EN. unfold gradientPoints.
  fold grad in EN. subst sp. unfold scaledPosition in *. cbn [vx vy vz] in *.
  set (sx := vx p * mPosXScale g) in *.
  set (sy := vy p * mPosYScale g) in *.
  set (sz := vz p * mPosZScale g) in *.
  destruct (mTrilinearGradient g).
  - destruct (to_size_t sx) as [x0 |] eqn:X0; [| discriminate].
    destruct (to_size_t (ceil sx)) as [x1 |] eqn:X1; [| discriminate].
    destruct (to_size_t sy) as [y0 |] eqn:Y0; [| discriminate].
    destruct (to_size_t (ceil sy)) as [y1 |] eqn:Y1; [| discriminate].
    destruct (to_size_t sz) as [z0 |] eqn:Z0; [| discriminate].
    destruct (to_size_t (ceil sz)) as [z1 |] eqn:Z1; [| discriminate].
    cbn [obind] in EN. injection EN as <-. cbn [vscale vx vy vz].
    split.
    + eexists. split.
      * left. split; [reflexivity |].
        exists x0, x1, y0, y1, z0, z1. repeat (split; [reflexivity |]). reflexivity.
      * cbn [vblend vx vy vz]. split; [| split]; ring.
    + intros Pure. cbn [vblend vx vy vz].
      assert (PX : forall x y z, In (x, y, z)
                [(x0, y0, z0); (x1, y0, z0); (x0, y1, z0); (x0, y0, z1);
                 (x1, y0, z1); (x0, y1, z1); (x1, y1, z0); (x1, y1, z1)] ->
                0 < vx (grad x y z)) by (intros; apply Pure; assumption).
      pose proof (blend_pos sx sy sz x0 x1 y0 y1 z0 z1
                    (fun x y z => vx (grad x y z)) X0 X1 Y0 Y1 Z0 Z1 PX) as BP.
      cbv beta in BP.
      split; [| split].
      * lra.
      * rewrite blend_zeros; [ring | apply Pure; cbn; tauto ..].
      * rewrite blend_zeros; [ring | apply Pure; cbn; tauto ..].
  - destruct (to_size_t (sx + (1#2))) as [x |] eqn:X; [| discriminate].
    destruct (to_size_t (sy + (1#2))) as [y |] eqn:Y; [| discriminate].
    destruct (to_size_t (sz + (1#2))) as [z |] eqn:Z; [| discriminate].
    cbn [obind] in EN. injection EN as <-. cbn [vscale vx vy vz].
    split.
    + eexists. split.
      * right. split; [reflexivity |].
        exists x, y, z. repeat (split; [reflexivity |]). reflexivity.
      * split; [| split]; ring.
    + intros Pure. destruct (Pure x y z) as (PX & PY & PZ); [cbn; tauto |].
      split; [| split].
      * lra.
      * rewrite PY. ring.
      * rewrite PZ. ring.
Qed.

Lemma conversions_defined (r : Real) :
  0 <= r -> r <= of_int INT_MAX ->
  (exists a, to_size_t r = Some a) /\
  (exists b, to_size_t (ceil r) = Some b) /\
  (exists c, to_size_t (r + (1#2)) = Some c).
Proof.
  intros R0 R1. unfold of_int in R1.
  assert (I : (INT_MAX + 1 <= SIZE_MAX)%Z) by (unfold INT_MAX, SIZE_MAX; lia).
  split; [| split].
  - destruct (trunc_nonneg r R0) as (T0 & T1 & _).
    exists (trunc r). apply to_size_t_intro; [reflexivity |].
    split; [exact T0 |].
    assert ((trunc r <= INT_MAX)%Z) by (rewrite Zle_Qle; lra). lia.
  - exists (Qceiling r). apply to_size_t_intro.
    + unfold ceil. apply (trunc_of_int (Qceiling r)).
    + split.
      * change 0%Z with (Qceiling 0). apply Qceiling_resp_le. exact R0.
      * rewrite <- (Qceiling_Z INT_MAX) in I.
        pose proof (Qceiling_resp_le _ _ R1). rewrite Qceiling_Z in *. lia.
  - destruct (trunc_nonneg (r + (1#2))) as (T0 & T1 & _); [lra |].
    exists (trunc (r + (1#2))). apply to_size_t_intro; [reflexivity |].
    split; [exact T0 |].
    assert ((trunc (r + (1#2))%Q < INT_MAX + 1)%Z).
    { rewrite Zlt_Qlt, inject_Z_plus. change (inject_Z 1) with 1. lra. }
    lia.
Qed.

(** C9. The fourth component of [getValueAndGradient] is [getValue] at the
    same position; the value branch does not read the gradient flag and
    the normal does not read the value flag; at a position inside the
    lattice box the call is defined for every combination of the two
    flags.  And the two parts of the result are what the two flags select,
    each on its own and both from the scaled input position: the first
    three components are the negated blend of the eight corner gradients
    when the gradient flag is set and the negated gradient of the nearest
    lattice point when it is clear; the fourth is the blend of the eight
    corner samples when the value flag is set and the nearest sample when
    it is clear. *)
Theorem getValueAndGradient_value_component (g : GridSource S) (p : Vector3) :
  (forall v, getValueAndGradient g p = Some v -> getValue g p = Some (v4w v)) /\
  (forall b, getValue (set_mTrilinearGradient b g) p = getValue g p) /\
  (forall b, getNormal (set_mTrilinearValue b g) p = getNormal g p) /\
  (int_dims g -> in_lattice g p ->
   forall bv bg, exists v,
     getValueAndGradient (set_mTrilinearValue bv (set_mTrilinearGradient bg g)) p
       = Some v /\
     getValue (set_mTrilinearValue bv g) p = Some (v4w v)) /\
  (forall v, getValueAndGradient g p = Some v ->
   let sp := scaledPosition g p in
   let grad := getGradient (mSobelGradient g) (mStorage g) in
   let f := getVolumeGridValue (mStorage g) in
   ((mTrilinearGradient g = true /\
     exists x0 x1 y0 y1 z0 z1,
       to_size_t (vx sp) = Some x0 /\ to_size_t (ceil (vx sp)) = Some x1 /\
       to_size_t (vy sp) = Some y0 /\ to_size_t (ceil (vy sp)) = Some y1 /\
       to_size_t (vz sp) = Some z0 /\ to_size_t (ceil (vz sp)) = Some z1 /\
       let n := vscale
                  (vblend (grad x0 y0 z0) (grad x1 y0 z0) (grad x0 y1 z0) (grad x0 y0 z1)
                          (grad x1 y0 z1) (grad x0 y1 z1) (grad x1 y1 z0) (grad x1 y1 z1)
                          (vx sp - of_int x0) (vy sp - of_int y0) (vz sp - of_int z0))
                  (-(1)) in
       v4x v = vx n /\ v4y v = vy n /\ v4z v = vz n)
    \/
    (mTrilinearGradient g = false /\
     exists x y z,
       to_size_t (vx sp + (1#2)) = Some x /\ to_size_t (vy sp + (1#2)) = Some y /\
       to_size_t (vz sp + (1#2)) = Some z /\
       let n := vscale (grad x y z) (-(1)) in
       v4x v = vx n /\ v4y v = vy n /\ v4z v = vz n))
   /\
   ((mTrilinearValue g = true /\
     exists x0 x1 y0 y1 z0 z1,
       to_size_t (vx sp) = Some x0 /\ to_size_t (ceil (vx sp)) = Some x1 /\
       to_size_t (vy sp) = Some y0 /\ to_size_t (ceil (vy sp)) = Some y1 /\
       to_size_t (vz sp) = Some z0 /\ to_size_t (ceil (vz sp)) = Some z1 /\
       v4w v = blend (f x0 y0 z0) (f x1 y0 z0) (f x0 y1 z0) (f x0 y0 z1)
                     (f x1 y0 z1) (f x0 y1 z1) (f x1 y1 z0) (f x1 y1 z1)
                     (vx sp - of_int x0) (vy sp - of_int y0) (vz sp - of_int z0))
    \/
    (mTrilinearValue g = false /\
     exists x y z,
       to_size_t (vx sp + (1#2)) = Some x /\ to_size_t (vy sp + (1#2)) = Some y /\
       to_size_t (vz sp + (1#2)) = Some z /\
       v4w v = f x y z))).
Proof.
  split; [| split; [| split; [| split]]].
  - intros v E. destruct (getValueAndGradient_Some g p v E) as (n & value & _ & EV & ->).
    exact EV.
  - intros b. reflexivity.
  - intros b. reflexivity.
  - intros (DW & DH & DD) (LX & LY & LZ) bv bg.
    assert (Q : forall d : Z, (d <= INT_MAX)%Z -> of_int d <= of_int INT_MAX).
    { intros d Hd. unfold of_int. rewrite <- Zle_Qle. exact Hd. }
    destruct (conversions_defined _ (proj1 LX)) as ((x0 & X0) & (x1 & X1) & (xn & XN));
      [pose proof (Q _ DW); lra |].
    destruct (conversions_defined _ (proj1 LY)) as ((y0 & Y0) & (y1 & Y1) & (yn & YN));
      [pose proof (Q _ DH); lra |].
    destruct (conversions_defined _ (proj1 LZ)) as ((z0 & Z0) & (z1 & Z1) & (zn & ZN));
      [pose proof (Q _ DD); lra |].
    unfold getValueAndGradient, getNormal, getValue.
    change (scaledPosition (set_mTrilinearValue bv (set_mTrilinearGradient bg g)) p)
      with (scaledPosition g p).
    change (scaledPosition (set_mTrilinearValue bv g) p) with (scaledPosition g p).
    cbn [set_mTrilinearValue set_mTrilinearGradient mTrilinearValue
         mTrilinearGradient mStorage mSobelGradient].
    destruct bv, bg;
      rewrite ?X0, ?X1, ?XN, ?Y0, ?Y1, ?YN, ?Z0, ?Z1, ?ZN; cbn [obind];
      eexists; split; reflexivity.
  - intros v E sp grad f.
    destruct (getValueAndGradient_Some g p v E) as (n & value & EN & EV & ->).
    cbn [v4x v4y v4z v4w]. split.
    + unfold getNormal in EN. fold sp in EN. fold grad in EN.
      destruct (mTrilinearGradient g).
      * left. split; [reflexivity |].
        destruct (to_size_t (vx sp)) as [x0 |]; [| discriminate].
        destruct (to_size_t (ceil (vx sp))) as [x1 |]; [| discriminate].
        destruct (to_size_t (vy sp)) as [y0 |]; [| discriminate].
        destruct (to_size_t (ceil (vy sp))) as [y1 |]; [| discriminate].
        destruct (to_size_t (vz sp)) as [z0 |]; [| discriminate].
        destruct (to_size_t (ceil (vz sp))) as [z1 |]; [| discriminate].
        cbn [obind] in EN. injection EN as <-.
        exists x0, x1, y0, y1, z0, z1.
        repeat (split; [reflexivity |]). cbv zeta. auto.
      * right. split; [reflexivity |].
        destruct (to_size_t (vx sp + (1#2))) as [x |]; [| discriminate].
        destruct (to_size_t (vy sp + (1#2))) as [y |]; [| discriminate].
        destruct (to_size_t (vz sp + (1#2))) as [z |]; [| discriminate].
        cbn [obind] in EN. injection EN as <-.
        exists x, y, z.
        repeat (split; [reflexivity |]). cbv zeta. auto.
    + unfold getValue in EV. fold sp in EV. fold f in EV.
      destruct (mTrilinearValue g).
      * left. split; [reflexivity |].
        destruct (to_size_t (vx sp)) as [x0 |]; [| discriminate].
        destruct (to_size_t (ceil (vx sp))) as [x1 |]; [| discriminate].
        destruct (to_size_t (vy sp)) as [y0 |]; [| discriminate].
        destruct (to_size_t (ceil (vy sp))) as [y1 |]; [| discriminate].
        destruct (to_size_t (vz sp)) as [z0 |]; [| discriminate].
        destruct (to_size_t (ceil (vz sp))) as [z1 |]; [| discriminate].
        cbn [obind] in EV. injection EV as <-.
        exists x0, x1, y0, y1, z0, z1.
        repeat (split; [reflexivity |]). reflexivity.
      * right. split; [reflexivity |].
        destruct (to_size_t (vx sp + (1#2))) as [x |]; [| discriminate].
        destruct (to_size_t (vy sp + (1#2))) as [y |]; [| discriminate].
        destruct (to_size_t (vz sp + (1#2))) as [z |]; [| discriminate].
        cbn [obind] in EV. injection EV as <-.
        exists x, y, z.
        repeat (split; [reflexivity |]). reflexivity.
Qed.

End GradientFacts.

(* ================================================================== *)
(** ** Bounds / intersection *)

Section IntersectionFacts.
Context {S : Type} {P : RayBoxPrimitives}.

Lemma box_contains_inside (g : GridSource S) (v : Vector3) :
  box_contains (gridBox g) v = true <-> inside_box g v.
Proof.
  unfold box_contains, gridBox, AxisAlignedBox_of, inside_box.
  cbn [mMinimum mMaximum vx vy vz].
  rewrite !andb_true_iff, !Qle_bool_iff. tauto.
Qed.

Lemma box_contains_veq (b : AxisAlignedBox) (u v : Vector3) :
  veq u v -> box_contains b u = box_contains b v.
Proof.
  intros (EX & EY & EZ). unfold box_contains.
  rewrite EX, EY, EZ. reflexivity.
Qed.

(** C6. [getIntersectionStart] returns the origin when the origin lies in
    the box [0,width]x[0,height]x[0,depth], the origin again when the
    ray/box test reports no hit, and origin + normalised direction x
    distance in the remaining case (origin outside, ray hits). *)
Theorem getIntersectionStart_cases (g : GridSource S) (ray : Ray) (maxDistance : Real) :
  let box := gridBox g in
  (inside_box g (getOrigin ray) ->
   getIntersectionStart g ray maxDistance = getOrigin ray) /\
  (fst (ray_intersects ray box) = false ->
   getIntersectionStart g ray maxDistance = getOrigin ray) /\
  (~ inside_box g (getOrigin ray) -> fst (ray_intersects ray box) = true ->
   getIntersectionStart g ray maxDistance =
   vadd (getOrigin ray)
        (vscale (normalisedCopy (getDirection ray)) (snd (ray_intersects ray box)))).
Proof.
  intros box. unfold getIntersectionStart. fold box.
  split; [| split].
  - intros In. apply box_contains_inside in In. fold box in In. rewrite In. reflexivity.
  - intros Miss. rewrite Miss. destruct (box_contains box (getOrigin ray)); reflexivity.
  - intros Out Hit. rewrite Hit.
    destruct (box_contains box (getOrigin ray)) eqn:E; [| reflexivity].
    exfalso. apply Out. apply box_contains_inside. exact E.
Qed.

(** A point of the reverse ray is a point of the line through the ray. *)
Lemma reverse_point_on_line (g : GridSource S) (ray : Ray) (c t : Real) :
  veq (normalisedCopy (getDirection ray)) (vscale (getDirection ray) c) ->
  veq (ray_point (reverseRay g ray) t)
      (ray_point ray (c * (length (getSize (gridBox g)) - t))).
Proof.
  intros (EX & EY & EZ). unfold ray_point, reverseRay, veq.
  cbn [getOrigin getDirection vadd vscale vscale_l vx vy vz] in *.
  rewrite EX, EY, EZ. split; [| split]; ring.
Qed.

(** C7, as the code has it. When the reverse ray (origin moved down the
    normalised direction by the box diagonal, direction negated) is
    reported to miss the box, [getIntersectionEnd] returns origin +
    normalised direction x maxDistance.  When the reverse ray is reported
    to hit the box, whatever the ray itself does, the exit point is the
    reverse ray's hit point: its origin plus its direction x the reported
    distance; so a ray that misses the box because the box lies behind its
    origin gets that point and not the fallback.  The fallback is the exit
    point of a ray whose whole line misses the box, as long as the ray/box
    test reports only real hits and normalisation keeps the direction's
    line. *)
Theorem getIntersectionEnd_fallback (g : GridSource S) (ray : Ray) (maxDistance : Real) :
  let box := gridBox g in
  let fallback :=
    vadd (getOrigin ray) (vscale (normalisedCopy (getDirection ray)) maxDistance) in
  (fst (ray_intersects (reverseRay g ray) box) = false ->
   getIntersectionEnd g ray maxDistance = fallback) /\
  (fst (ray_intersects (reverseRay g ray) box) = true ->
   getIntersectionEnd g ray maxDistance =
   ray_point (reverseRay g ray) (snd (ray_intersects (reverseRay g ray) box))) /\
  (hit_is_sound (reverseRay g ray) box ->
   (exists c, veq (normalisedCopy (getDirection ray)) (vscale (getDirection ray) c)) ->
   line_misses ray box ->
   getIntersectionEnd g ray maxDistance = fallback).
Proof.
  intros box fallback.
  assert (Miss : fst (ray_intersects (reverseRay g ray) box) = false ->
                 getIntersectionEnd g ray maxDistance = fallback).
  { intros M. unfold getIntersectionEnd. fold box.
    unfold reverseRay in M. fold box in M. rewrite M. reflexivity. }
  split; [exact Miss |].
  split.
  { intros Hit. unfold getIntersectionEnd, ray_point. fold box.
    unfold reverseRay in *. fold box in Hit |- *. cbn [getOrigin getDirection].
    rewrite Hit. reflexivity. }
  intros Sound (c & Par) Line. apply Miss.
  destruct (fst (ray_intersects (reverseRay g ray) box)) eqn:Hit; [| reflexivity].
  exfalso. destruct (Sound Hit) as (t & _ & In).
  rewrite (box_contains_veq _ _ _ (reverse_point_on_line g ray c t Par)) in In.
  rewrite Line in In. discriminate.
Qed.

End IntersectionFacts.

(* ================================================================== *)
(** ** Region bake *)

Section BakeFacts.
Context {S : Type} `{GridStorage S}.

Lemma writes_app (l1 l2 : list (Event S)) : writes (l1 ++ l2) = writes l1 ++ writes l2.
Proof.
  induction l1 as [| [g p | x y z v] l1 IH]; cbn; [reflexivity | exact IH |].
  rewrite IH. reflexivity.
Qed.

Lemma observed_app (l1 l2 : list (Event S)) :
  observed (l1 ++ l2) = observed l1 ++ observed l2.
Proof.
  induction l1 as [| [g p | x y z v] l1 IH]; cbn; [reflexivity | | exact IH].
  rewrite IH. reflexivity.
Qed.

Lemma In_zseq (n : nat) (i j : Z) : In j (zseq i n) <-> (i <= j < i + Z.of_nat n)%Z.
Proof.
  revert i. induction n as [| n IH]; intros i; cbn [zseq In].
  - lia.
  - rewrite IH. lia.
Qed.

Lemma In_range (lo hi j : Z) : In j (range lo hi) <-> (lo <= j < hi)%Z.
Proof. unfold range. rewrite In_zseq. lia. Qed.

Lemma In_boxPoints (b : Box) (x y z : Z) :
  In (x, y, z) (boxPoints b) <-> in_box b x y z.
Proof.
  unfold boxPoints, in_box. rewrite in_flat_map. split.
  - intros (z' & Hz & Hin). apply in_flat_map in Hin. destruct Hin as (y' & Hy & Hin).
    apply in_map_iff in Hin. destruct Hin as (x' & E & Hx). injection E as <- <- <-.
    apply In_range in Hx, Hy, Hz. auto.
  - intros (Hx & Hy & Hz). exists z. split; [apply In_range; exact Hz |].
    apply in_flat_map. exists y. split; [apply In_range; exact Hy |].
    apply in_map_iff. exists x. split; [reflexivity | apply In_range; exact Hx].
Qed.

(** *** Invariants of the loops *)

Lemma bind_preserves {A B} (I : World S -> Prop) (m : M S A) (k : A -> M S B) :
  preserves I m -> (forall a, preserves I (k a)) -> preserves I (bind m k).
Proof.
  intros Hm Hk w w' o Iw E. unfold bind in E.
  destruct (m w) as [w1 [a | |]] eqn:Em.
  - apply (Hk a w1 w' o); [apply (Hm w w1 (Returns a) Iw Em) | exact E].
  - injection E as <- <-. apply (Hm w w1 Throws Iw Em).
  - injection E as <- <-. apply (Hm w w1 Undefined Iw Em).
Qed.

Lemma for_count_preserves (I : World S -> Prop) (body : Z -> M S unit) (n : nat) (i : Z) :
  (forall j, (i <= j < i + Z.of_nat n)%Z -> preserves I (body j)) ->
  preserves I (for_count n i body).
Proof.
  revert i. induction n as [| n IH]; intros i Hb; cbn [for_count].
  - intros w w' o Iw E. injection E as <- <-. exact Iw.
  - apply bind_preserves.
    + apply Hb. lia.
    + intros _. apply IH. intros j Hj. apply Hb. lia.
Qed.

Lemma for_range_preserves (I : World S -> Prop) (body : Z -> M S unit) (lo hi : Z) :
  (forall j, (lo <= j < hi)%Z -> preserves I (body j)) ->
  preserves I (for_range lo hi body).
Proof.
  intros Hb. unfold for_range. apply for_count_preserves.
  intros j Hj. apply Hb. lia.
Qed.

Lemma bake_inv_refl (b : Box) (w : World S) :
  mTrilinearValue (grid w) = false -> bake_inv b w w.
Proof.
  intros F. split; [exact F |]. split; [unfold same_config; tauto |].
  split; [reflexivity |].
  exists []. rewrite app_nil_r. cbn. auto.
Qed.

Lemma replay_app (l1 l2 : list (Event S)) (s : S) :
  replay (l1 ++ l2) s = replay l2 (replay l1 s).
Proof. unfold replay. apply fold_left_app. Qed.

Lemma same_config_set_mStorage (g0 g : GridSource S) (s : S) :
  same_config g0 g -> same_config g0 (set_mStorage s g).
Proof. unfold same_config. cbn. tauto. Qed.

(** One step of the innermost loop. *)
Lemma step_preserves (b : Box) (w0 : World S) (source : Source)
      (pos : Vector3) (x y z : Z) :
  in_box b x y z ->
  preserves (bake_inv b w0)
    (bind (operation_getValue source pos)
          (fun value => this_setVolumeGridValue x y z value)).
Proof.
  intros Hin w w' o (F & C & O & l & El & Wl & Ol & Sl) E.
  unfold bind, operation_getValue, this_setVolumeGridValue, emit, modifyGrid in E.
  cbn [grid operation events] in E.
  destruct (evaluate (operation w) _ _ pos) as [v | |]; injection E as <- <-;
    cbn [grid operation events set_mStorage mTrilinearValue mStorage].
  - split; [exact F |]. split; [apply same_config_set_mStorage; exact C |].
    split; [exact O |].
    exists (l ++ [EvGetValue (grid w) pos] ++ [EvSetValue x y z v]).
    rewrite El, <- !app_assoc. split; [reflexivity |].
    rewrite !writes_app, !observed_app, replay_app. cbn. split; [| split].
    + apply Forall_app. split; [exact Wl |]. constructor; [exact Hin | constructor].
    + apply Forall_app. split; [exact Ol |]. constructor; [exact F | constructor].
    + rewrite Sl. reflexivity.
  - split; [exact F |]. split; [exact C |]. split; [exact O |].
    exists (l ++ [EvGetValue (grid w) pos]).
    rewrite El, <- !app_assoc. split; [reflexivity |].
    rewrite !writes_app, !observed_app, replay_app. cbn. rewrite app_nil_r.
    split; [exact Wl |]. split; [| exact Sl].
    apply Forall_app. split; [exact Ol |]. constructor; [exact F | constructor].
  - split; [exact F |]. split; [exact C |]. split; [exact O |].
    exists (l ++ [EvGetValue (grid w) pos]).
    rewrite El, <- !app_assoc. split; [reflexivity |].
    rewrite !writes_app, !observed_app, replay_app. cbn. rewrite app_nil_r.
    split; [exact Wl |]. split; [| exact Sl].
    apply Forall_app. split; [exact Ol |]. constructor; [exact F | constructor].
Qed.

Lemma bakeLoop_preserves (b : Box) (w0 : World S) (source : Source) (sx sy sz : Real) :
  preserves (bake_inv b w0) (bakeLoop source b sx sy sz).
Proof.
  unfold bakeLoop.
  apply for_range_preserves. intros z Hz.
  apply for_range_preserves. intros y Hy.
  apply for_range_preserves. intros x Hx.
  apply step_preserves. unfold in_box. auto.
Qed.

(** *** What a completed loop has written *)

Lemma for_count_writes (f : Z -> list (Z * Z * Z)) (body : Z -> M S unit)
      (n : nat) (i : Z) (w w' : World S) :
  (forall j w1 w2, body j w1 = (w2, Returns tt) ->
                   writes (events w2) = writes (events w1) ++ f j) ->
  for_count n i body w = (w', Returns tt) ->
  writes (events w') = writes (events w) ++ flat_map f (zseq i n).
Proof.
  intros Hb. revert i w. induction n as [| n IH]; intros i w; cbn [for_count zseq flat_map].
  - intros E. injection E as <-. rewrite app_nil_r. reflexivity.
  - unfold bind. destruct (body i w) as [w1 [[] | |]] eqn:E1; try discriminate.
    intros E. rewrite (IH _ _ E), (Hb _ _ _ E1), app_assoc. reflexivity.
Qed.

Lemma for_range_writes (f : Z -> list (Z * Z * Z)) (body : Z -> M S unit)
      (lo hi : Z) (w w' : World S) :
  (forall j w1 w2, body j w1 = (w2, Returns tt) ->
                   writes (events w2) = writes (events w1) ++ f j) ->
  for_range lo hi body w = (w', Returns tt) ->
  writes (events w') = writes (events w) ++ flat_map f (range lo hi).
Proof. apply for_count_writes. Qed.

Lemma step_writes (source : Source) (pos : Vector3) (x y z : Z) (w1 w2 : World S) :
  bind (operation_getValue source pos)
       (fun value => this_setVolumeGridValue x y z value) w1 = (w2, Returns tt) ->
  writes (events w2) = writes (events w1) ++ [(x, y, z)].
Proof.
  unfold bind, operation_getValue, this_setVolumeGridValue, emit, modifyGrid.
  cbn [grid operation events].
  destruct (evaluate (operation w1) _ _ pos) as [v | |]; try discriminate.
  intros E. injection E as <-. cbn [events].
  rewrite !writes_app. cbn. rewrite app_nil_r. reflexivity.
Qed.

Lemma flat_map_singleton {A B} (f : A -> B) (l : list A) :
  flat_map (fun a => [f a]) l = map f l.
Proof. induction l as [| a l IH]; cbn; [reflexivity | rewrite IH; reflexivity]. Qed.

Lemma bakeLoop_writes (source : Source) (b : Box) (sx sy sz : Real) (w w' : World S) :
  bakeLoop source b sx sy sz w = (w', Returns tt) ->
  writes (events w') = writes (events w) ++ boxPoints b.
Proof.
  unfold bakeLoop, boxPoints.
  apply for_range_writes. intros z w1 w2.
  apply for_range_writes. intros y w3 w4.
  rewrite <- flat_map_singleton.
  apply for_range_writes. intros x w5 w6.
  apply step_writes.
Qed.

(** *** Normal completion *)

Lemma for_count_returns (I : World S -> Prop) (body : Z -> M S unit) (n : nat) :
  (forall j w, I w -> exists w', body j w = (w', Returns tt) /\ I w') ->
  forall i w, I w -> exists w', for_count n i body w = (w', Returns tt) /\ I w'.
Proof.
  intros Hb. induction n as [| n IH]; intros i w Iw; cbn [for_count].
  - exists w. split; [reflexivity | exact Iw].
  - unfold bind. destruct (Hb i w Iw) as (w1 & E1 & I1). rewrite E1.
    apply IH. exact I1.
Qed.

Lemma bakeLoop_returns (source : Source) (b : Box) (sx sy sz : Real) (w : World S) :
  never_fails (operation w) ->
  exists w', bakeLoop source b sx sy sz w = (w', Returns tt).
Proof.
  intros NF.
  assert (R : exists w', bakeLoop source b sx sy sz w = (w', Returns tt) /\
                         never_fails (operation w')).
  { unfold bakeLoop, for_range.
    apply (for_count_returns (fun w => never_fails (operation w))); [| exact NF].
    intros z. apply (for_count_returns (fun w => never_fails (operation w))).
    intros y. apply (for_count_returns (fun w => never_fails (operation w))).
    intros x w1 N1.
    unfold bind, operation_getValue, this_setVolumeGridValue, emit, modifyGrid.
    cbn [grid operation events].
    destruct (N1 (option_map (deref w1 source) (mA (operation w1)))
                 (option_map (deref w1 source) (mB (operation w1)))
                 (mkVector3 (of_int x * sx) (of_int y * sy) (of_int z * sz)))
      as (v & Ev).
    rewrite Ev. eexists. split; [reflexivity | exact N1]. }
  destruct R as (w' & E & _). exists w'. exact E.
Qed.

(** *** The call as a whole *)

(** [combineWithSource] binds the operands, clears the value flag,
    computes the box, runs the loops and, if they return, puts the flag
    back. *)
Lemma combineWithSource_unfold (source : Source) (center : Vector3) (radius : Real)
      (w0 : World S) :
  combineWithSource source center radius w0 =
  let g := grid w0 in
  let w1 := bakeStart w0 in
  match iterationBox g center radius with
  | None => (w1, Undefined)
  | Some b =>
      match bakeLoop source b (1 / mPosXScale g) (1 / mPosYScale g)
                     (1 / mPosZScale g) w1 with
      | (w2, Returns _) =>
          (mkWorld (set_mTrilinearValue (mTrilinearValue g) (grid w2))
                   (operation w2) (events w2), Returns tt)
      | (w2, Throws) => (w2, Throws)
      | (w2, Undefined) => (w2, Undefined)
      end
  end.
Proof.
  unfold combineWithSource, bind, getGrid, modifyOperation, modifyGrid, liftOutcome,
    bakeStart.
  cbn [grid operation events].
  destruct (iterationBox (grid w0) center radius) as [b |]; cbn [of_option]; reflexivity.
Qed.

Lemma bakeStart_inv (b : Box) (w0 : World S) : bake_inv b (bakeStart w0) (bakeStart w0).
Proof. apply bake_inv_refl. reflexivity. Qed.

(** When the six bounds are representable and the operator never fails,
    the call returns. *)
Lemma combineWithSource_returns (source : Source) (center : Vector3) (radius : Real)
      (w0 : World S) (b : Box) :
  iterationBox (grid w0) center radius = Some b ->
  never_fails (operation w0) ->
  exists w', combineWithSource source center radius w0 = (w', Returns tt).
Proof.
  intros EB NF. rewrite combineWithSource_unfold. cbv zeta. rewrite EB.
  destruct (bakeLoop_returns source b (1 / mPosXScale (grid w0))
              (1 / mPosYScale (grid w0)) (1 / mPosZScale (grid w0)) (bakeStart w0))
    as (w2 & E2).
  - intros a b' p. apply NF.
  - rewrite E2. eexists. reflexivity.
Qed.

(** The clamped bounds lie in the lattice. *)
Lemma iterationBox_in_grid (g : GridSource S) (center : Vector3) (radius : Real)
      (b : Box) (c : Z * Z * Z) :
  iterationBox g center radius = Some b -> in_box3 b c -> in_grid g c.
Proof.
  unfold iterationBox. intros E.
  destruct (to_int (vx center - radius)) as [xs |]; [| discriminate].
  destruct (to_int (vx center + radius)) as [xe |]; [| discriminate].
  destruct (to_int (vy center - radius)) as [ys |]; [| discriminate].
  destruct (to_int (vy center + radius)) as [ye |]; [| discriminate].
  destruct (to_int (vz center - radius)) as [zs |]; [| discriminate].
  destruct (to_int (vz center + radius)) as [ze |]; [| discriminate].
  cbn [obind] in E. injection E as <-.
  destruct c as [[x y] z]. unfold in_box3, in_box, in_grid.
  cbn [xStart xEnd yStart yEnd zStart zEnd].
  intros (Hx & Hy & Hz).
  split; [| split]; eapply Clamp_between; eassumption.
Qed.

(** C3. However the call ends, the samples [combineWithSource] writes are
    at integer coordinates (x,y,z) with 0 <= x < width, 0 <= y < height and
    0 <= z < depth, for every centre, radius, operator and other field; and
    the storage after the call is the storage before it with those writes
    applied. *)
Theorem combineWithSource_writes_in_lattice
        (source : Source) (center : Vector3) (radius : Real)
        (w0 w' : World S) (o : outcome unit) :
  combineWithSource source center radius w0 = (w', o) ->
  exists l, events w' = events w0 ++ l /\
            Forall (in_grid (grid w0)) (writes l) /\
            mStorage (grid w') = replay l (mStorage (grid w0)).
Proof.
  rewrite combineWithSource_unfold. cbv zeta.
  destruct (iterationBox (grid w0) center radius) as [b |] eqn:EB.
  - destruct (bakeLoop source b _ _ _ (bakeStart w0)) as [w2 o2] eqn:EL.
    pose proof (bakeLoop_preserves b (bakeStart w0) source _ _ _ _ _ _
                  (bakeStart_inv b w0) EL) as (_ & _ & _ & l & El & Wl & _ & Sl).
    intros E. exists l. split; [| split].
    + destruct o2 as [u | |]; injection E as <- <-; exact El.
    + eapply Forall_impl; [| exact Wl].
      intros c. apply (iterationBox_in_grid _ _ _ _ _ EB).
    + destruct o2 as [u | |]; injection E as <- <-; exact Sl.
  - intros E. injection E as <- <-. exists []. cbn. rewrite app_nil_r. auto.
Qed.

(** C1, as the code has it. The operator is only ever called with the
    value flag clear; when the loops run to completion the flag is put
    back to its value before the call; there is no guard for an abnormal
    exit, and when the operator throws the flag stays clear. *)
Theorem combineWithSource_value_flag
        (source : Source) (center : Vector3) (radius : Real)
        (w0 w' : World S) (o : outcome unit) :
  combineWithSource source center radius w0 = (w', o) ->
  (exists l, events w' = events w0 ++ l /\
             Forall (fun g => mTrilinearValue g = false) (observed l)) /\
  (o = Returns tt -> mTrilinearValue (grid w') = mTrilinearValue (grid w0)) /\
  (o = Throws -> mTrilinearValue (grid w') = false).
Proof.
  rewrite combineWithSource_unfold. cbv zeta.
  destruct (iterationBox (grid w0) center radius) as [b |] eqn:EB.
  - destruct (bakeLoop source b _ _ _ (bakeStart w0)) as [w2 o2] eqn:EL.
    pose proof (bakeLoop_preserves b (bakeStart w0) source _ _ _ _ _ _
                  (bakeStart_inv b w0) EL) as (F & _ & _ & l & El & _ & Ol & _).
    intros E.
    destruct o2 as [u | |]; injection E as <- <-; cbn [grid events];
      (split; [exists l; split; [exact El | exact Ol] |]);
      (split; [intros Eo | intros Eo]); try discriminate; try reflexivity.
    exact F.
  - intros E. injection E as <- <-.
    split; [exists []; cbn; rewrite app_nil_r; auto |].
    split; intros Eo; discriminate.
Qed.

Lemma iterationBox_Some (g : GridSource S) (center : Vector3) (radius : Real) (b : Box) :
  iterationBox g center radius = Some b ->
  b = mkBounds (Clamp (trunc (vx center - radius)) 0 (mWidth g))
               (Clamp (trunc (vx center + radius)) 0 (mWidth g))
               (Clamp (trunc (vy center - radius)) 0 (mHeight g))
               (Clamp (trunc (vy center + radius)) 0 (mHeight g))
               (Clamp (trunc (vz center - radius)) 0 (mDepth g))
               (Clamp (trunc (vz center + radius)) 0 (mDepth g)).
Proof.
  unfold iterationBox. intros E.
  destruct (to_int (vx center - radius)) as [xs |] eqn:E1; [| discriminate].
  destruct (to_int (vx center + radius)) as [xe |] eqn:E2; [| discriminate].
  destruct (to_int (vy center - radius)) as [ys |] eqn:E3; [| discriminate].
  destruct (to_int (vy center + radius)) as [ye |] eqn:E4; [| discriminate].
  destruct (to_int (vz center - radius)) as [zs |] eqn:E5; [| discriminate].
  destruct (to_int (vz center + radius)) as [ze |] eqn:E6; [| discriminate].
  cbn [obind] in E. injection E as <-.
  apply to_int_Some in E1, E2, E3, E4, E5, E6.
  destruct E1 as [<- _], E2 as [<- _], E3 as [<- _], E4 as [<- _], E5 as [<- _],
    E6 as [<- _].
  reflexivity.
Qed.

Lemma spec_iterationBox_unit_scale (g : GridSource S) (center : Vector3) (radius : Real) :
  mPosXScale g == 1 -> mPosYScale g == 1 -> mPosZScale g == 1 ->
  spec_iterationBox g center radius = iterationBox g center radius.
Proof.
  intros SX SY SZ. unfold spec_iterationBox, iterationBox.
  rewrite (to_int_comp ((vx center - radius) * mPosXScale g) (vx center - radius))
    by (rewrite SX; ring).
  rewrite (to_int_comp ((vx center + radius) * mPosXScale g) (vx center + radius))
    by (rewrite SX; ring).
  rewrite (to_int_comp ((vy center - radius) * mPosYScale g) (vy center - radius))
    by (rewrite SY; ring).
  rewrite (to_int_comp ((vy center + radius) * mPosYScale g) (vy center + radius))
    by (rewrite SY; ring).
  rewrite (to_int_comp ((vz center - radius) * mPosZScale g) (vz center - radius))
    by (rewrite SZ; ring).
  rewrite (to_int_comp ((vz center + radius) * mPosZScale g) (vz center + radius))
    by (rewrite SZ; ring).
  reflexivity.
Qed.

(** The iteration box of lines 237-242, for every centre and radius. The
    six bounds are centre plus or minus radius truncated toward zero as
    they are given, with no scale factor applied, each then clamped into
    [0, dimension]; a call that returns has written exactly the lattice
    points of that box, start bounds included and end bounds excluded.  The
    box is the one converted to lattice index space when the three scale
    factors are 1. *)
Theorem combineWithSource_iteration_box
        (source : Source) (center : Vector3) (radius : Real) (w0 w' : World S) :
  combineWithSource source center radius w0 = (w', Returns tt) ->
  let g := grid w0 in
  exists b l,
    iterationBox g center radius = Some b /\
    b = mkBounds (Clamp (trunc (vx center - radius)) 0 (mWidth g))
                 (Clamp (trunc (vx center + radius)) 0 (mWidth g))
                 (Clamp (trunc (vy center - radius)) 0 (mHeight g))
                 (Clamp (trunc (vy center + radius)) 0 (mHeight g))
                 (Clamp (trunc (vz center - radius)) 0 (mDepth g))
                 (Clamp (trunc (vz center + radius)) 0 (mDepth g)) /\
    (0 <= xStart b <= Z.max 0 (mWidth g) /\ 0 <= xEnd b <= Z.max 0 (mWidth g) /\
     0 <= yStart b <= Z.max 0 (mHeight g) /\ 0 <= yEnd b <= Z.max 0 (mHeight g) /\
     0 <= zStart b <= Z.max 0 (mDepth g) /\ 0 <= zEnd b <= Z.max 0 (mDepth g))%Z /\
    events w' = events w0 ++ l /\
    writes l = boxPoints b /\
    (mPosXScale g == 1 -> mPosYScale g == 1 -> mPosZScale g == 1 ->
     spec_iterationBox g center radius = Some b).
Proof.
  rewrite combineWithSource_unfold. cbv zeta.
  destruct (iterationBox (grid w0) center radius) as [b |] eqn:EB; [| discriminate].
  destruct (bakeLoop source b _ _ _ (bakeStart w0)) as [w2 o2] eqn:EL.
  destruct o2 as [[] | |]; try discriminate.
  intros E. injection E as <-. cbn [events].
  pose proof (bakeLoop_preserves b (bakeStart w0) source _ _ _ _ _ _
                (bakeStart_inv b w0) EL) as (_ & _ & _ & l & El & _ & _ & _).
  pose proof (bakeLoop_writes _ _ _ _ _ _ _ EL) as W.
  cbn [bakeStart events] in El, W.
  exists b, l. split; [reflexivity |].
  split; [apply iterationBox_Some; exact EB |].
  split.
  { rewrite (iterationBox_Some _ _ _ _ EB). cbn [xStart xEnd yStart yEnd zStart zEnd].
    repeat split; apply Clamp_range. }
  split; [exact El |].
  split.
  { rewrite El, writes_app in W. apply app_inv_head in W. exact W. }
  intros SX SY SZ. rewrite spec_iterationBox_unit_scale; assumption.
Qed.

End BakeFacts.

Section BakeFrame.
Context {S : Type} `{LawfulStorage S}.

Lemma step_preserves_outside (b : Box) (g0 : GridSource S) (source : Source)
      (pos : Vector3) (x y z : Z) :
  in_box b x y z ->
  preserves (fun w => same_outside b g0 (grid w))
    (bind (operation_getValue source pos)
          (fun value => this_setVolumeGridValue x y z value)).
Proof.
  intros Hin w w' o Out E.
  unfold bind, operation_getValue, this_setVolumeGridValue, emit, modifyGrid in E.
  cbn [grid operation events] in E.
  destruct (evaluate (operation w) _ _ pos) as [v | |]; injection E as <- <-;
    cbn [grid]; try exact Out.
  intros x' y' z' Nin. cbn [set_mStorage mStorage].
  rewrite get_set_other; [apply Out; exact Nin |].
  intros Eq. injection Eq as <- <- <-. apply Nin. exact Hin.
Qed.

Lemma bakeLoop_preserves_outside (b : Box) (g0 : GridSource S) (source : Source)
      (sx sy sz : Real) :
  preserves (fun w => same_outside b g0 (grid w)) (bakeLoop source b sx sy sz).
Proof.
  unfold bakeLoop.
  apply for_range_preserves. intros z Hz.
  apply for_range_preserves. intros y Hy.
  apply for_range_preserves. intros x Hx.
  apply step_preserves_outside. unfold in_box. auto.
Qed.

(** C10. When [combineWithSource] returns, every sample outside the
    clamped iteration box reads as before the call, and the dimensions,
    the three scale factors, the volume-space-to-world-space factor, the
    gradient flag and the Sobel flag are those of before the call; the
    value flag is back to its value before the call. *)
Theorem combineWithSource_frame
        (source : Source) (center : Vector3) (radius : Real) (w0 w' : World S) :
  combineWithSource source center radius w0 = (w', Returns tt) ->
  exists b,
    iterationBox (grid w0) center radius = Some b /\
    same_outside b (grid w0) (grid w') /\
    same_config (grid w0) (grid w') /\
    mTrilinearValue (grid w') = mTrilinearValue (grid w0).
Proof.
  rewrite combineWithSource_unfold. cbv zeta.
  destruct (iterationBox (grid w0) center radius) as [b |] eqn:EB; [| discriminate].
  destruct (bakeLoop source b _ _ _ (bakeStart w0)) as [w2 o2] eqn:EL.
  destruct o2 as [[] | |]; try discriminate.
  intros E. injection E as <-. cbn [grid].
  pose proof (bakeLoop_preserves b (bakeStart w0) source _ _ _ _ _ _
                (bakeStart_inv b w0) EL) as (_ & C & _).
  assert (O0 : same_outside b (grid w0) (grid (bakeStart w0))).
  { intros x y z _. reflexivity. }
  pose proof (bakeLoop_preserves_outside b (grid w0) source _ _ _ _ _ _ O0 EL) as O.
  exists b. split; [reflexivity |].
  split; [exact O |].
  split; [exact C |].
  reflexivity.
Qed.

End BakeFrame.

(* ================================================================== *)
(** ** Concrete runs *)

Section Runs.
Import Dense.

Lemma dense_lawful : LawfulStorage Store.
Proof.
  split.
  - intros s x y z v. cbn. unfold write. rewrite !Z.eqb_refl. reflexivity.
  - intros s x y z v x' y' z' Ne. cbn. unfold write, read.
    destruct (((x =? x') && (y =? y') && (z =? z'))%Z) eqn:E; [| reflexivity].
    apply andb_true_iff in E. destruct E as [E Ez].
    apply andb_true_iff in E. destruct E as [Ex Ey].
    apply Z.eqb_eq in Ex, Ey, Ez. subst. contradiction.
Qed.

Lemma grid4_int_dims (scale : Real) (tv tg : bool) (s : Store) :
  int_dims (grid4 scale tv tg s).
Proof. unfold int_dims, INT_MAX. cbn. lia. Qed.

(** The gradient of the ramp points along +x everywhere. *)
Lemma ramp_gradient (sobel : bool) (x y z : Z) :
  0 < vx (getGradient sobel ramp x y z) /\
  vy (getGradient sobel ramp x y z) == 0 /\
  vz (getGradient sobel ramp x y z) == 0.
Proof.
  cbn. unfold ramp. unfold Z.sub. rewrite !inject_Z_plus.
  change (inject_Z 1) with 1. change (inject_Z (Z.opp 1)) with (-(1)).
  split; [| split]; [lra | ring | ring].
Qed.

(** The scenario of the specification: the spike read trilinearly at
    (2,2,2) and at (1.5,2,2). *)
Example spike_at_peak :
  getValue (grid4 1 true true spike) (mkVector3 2 2 2) = Some 5.
Proof. vm_compute. reflexivity. Qed.

Example spike_midpoint :
  exists v, getValue (grid4 1 true true spike) (mkVector3 (3#2) 2 2) = Some v /\ v == 3.
Proof. eexists. split; [vm_compute; reflexivity | reflexivity]. Qed.

Lemma getValue_trilinear_at_lattice_point_witness :
  exists v, getValue (grid4 1 true true spike) (mkVector3 2 2 2) = Some v /\
            v == getVolumeGridValue (mStorage (grid4 1 true true spike)) 2 2 2.
Proof.
  apply (getValue_trilinear_at_lattice_point
           (grid4 1 true true spike) (mkVector3 2 2 2) 2 2 2);
    [reflexivity | apply grid4_int_dims | reflexivity | reflexivity | reflexivity
     | cbn; lia | cbn; lia | cbn; lia].
Defined.


Lemma getValueAndGradient_negates_gradient_witness :
  exists v, getValueAndGradient (grid4 1 false true ramp) (mkVector3 (3#2) 1 1) = Some v /\
            v4x v < 0 /\ v4y v == 0 /\ v4z v == 0.
Proof.
  destruct (getValueAndGradient (grid4 1 false true ramp) (mkVector3 (3#2) 1 1))
    as [v |] eqn:E.
  - exists v. split; [reflexivity |].
    apply (proj2 (getValueAndGradient_negates_gradient _ _ v E)).
    intros x y z _. apply ramp_gradient.
  - vm_compute in E. discriminate.
Defined.

Lemma getValueAndGradient_value_component_witness :
  exists v,
    getValueAndGradient
      (set_mTrilinearValue true (set_mTrilinearGradient false (grid4 1 false true spike)))
      (mkVector3 (3#2) 2 2) = Some v /\
    getValue (set_mTrilinearValue true (grid4 1 false true spike)) (mkVector3 (3#2) 2 2)
      = Some (v4w v).
Proof.
  apply (proj1 (proj2 (proj2 (proj2 (getValueAndGradient_value_component
           (grid4 1 false true spike) (mkVector3 (3#2) 2 2)))))).
  - apply grid4_int_dims.
  - unfold in_lattice. cbn. unfold of_int. repeat split; apply Qle_bool_iff; reflexivity.
Defined.

(** *** Rays against the 2x3x6 box *)

Lemma getIntersectionStart_cases_witness :
  let inside := mkRay (mkVector3 1 1 1) (mkVector3 1 0 0) in
  let away := mkRay (mkVector3 9 1 1) (mkVector3 1 0 0) in
  let towards := mkRay (mkVector3 (-(3)) 1 1) (mkVector3 1 0 0) in
  getIntersectionStart (P := xRays) grid236 inside 100 = mkVector3 1 1 1 /\
  getIntersectionStart (P := xRays) grid236 away 100 = mkVector3 9 1 1 /\
  getIntersectionStart (P := xRays) grid236 towards 100 =
    vadd (mkVector3 (-(3)) 1 1)
         (vscale (mkVector3 1 0 0)
                 (snd (xRayIntersects towards (gridBox grid236)))).
Proof.
  intros inside away towards. split; [| split].
  - apply (proj1 (getIntersectionStart_cases (P := xRays) grid236 inside 100)).
    unfold inside_box. cbn. unfold of_int.
    repeat split; apply Qle_bool_iff; reflexivity.
  - apply (proj1 (proj2 (getIntersectionStart_cases (P := xRays) grid236 away 100))).
    vm_compute. reflexivity.
  - apply (proj2 (proj2 (getIntersectionStart_cases (P := xRays) grid236 towards 100))).
    + unfold inside_box. cbn. intros ((Neg & _) & _).
      apply Qle_bool_iff in Neg. vm_compute in Neg. discriminate.
    + vm_compute. reflexivity.
Defined.

(** A line that passes beside the box: y stays at 5, above the height 3. *)
Lemma beside_line_misses :
  line_misses (mkRay (mkVector3 0 5 0) (mkVector3 1 0 0)) (gridBox grid236).
Proof.
  intros t. unfold box_contains, ray_point, gridBox, AxisAlignedBox_of.
  cbn [mMinimum mMaximum getOrigin getDirection vadd vscale vx vy vz grid236
       mWidth mHeight mDepth].
  destruct (Qle_bool (5 + 0 * t) (of_int 3)) eqn:E.
  - apply Qle_bool_iff in E. unfold of_int in E. change (inject_Z 3) with 3 in E. lra.
  - rewrite andb_false_r. reflexivity.
Qed.

Lemma getIntersectionEnd_fallback_witness :
  let beside := mkRay (mkVector3 0 5 0) (mkVector3 1 0 0) in
  let away := mkRay (mkVector3 9 1 1) (mkVector3 1 0 0) in
  let back := reverseRay (P := xRays) grid236 away in
  getIntersectionEnd (P := xRays) grid236 beside 10 =
    vadd (mkVector3 0 5 0) (vscale (mkVector3 1 0 0) 10) /\
  getIntersectionEnd (P := xRays) grid236 away 10 =
    ray_point back (snd (xRayIntersects back (gridBox grid236))).
Proof.
  intros beside away back. split.
  - apply (proj2 (proj2 (getIntersectionEnd_fallback (P := xRays) grid236 beside 10))).
    + intros Hit. vm_compute in Hit. discriminate.
    + exists 1. vm_compute. auto.
    + apply beside_line_misses.
  - apply (proj1 (proj2 (getIntersectionEnd_fallback (P := xRays) grid236 away 10))).
    vm_compute. reflexivity.
Defined.

(** The primitives [xRays] are the geometric ones on the ray used next:
    the direction (1,0,0) has length 1, the box diagonal (2,3,6) has length
    7, and the reverse ray from (16,1,1) first meets the box at distance
    14. *)
Lemma xRays_on_away_ray :
  let away := mkRay (mkVector3 9 1 1) (mkVector3 1 0 0) in
  let box := gridBox grid236 in
  let back := reverseRay (P := xRays) grid236 away in
  vx (getDirection away) * vx (getDirection away)
    + vy (getDirection away) * vy (getDirection away)
    + vz (getDirection away) * vz (getDirection away) == 1 /\
  vx (getSize box) * vx (getSize box) + vy (getSize box) * vy (getSize box)
    + vz (getSize box) * vz (getSize box) == 7 * 7 /\
  xRayIntersects back box = (true, 14) /\
  box_contains box (ray_point back 14) = true /\
  (forall t, 0 <= t -> t < 14 -> box_contains box (ray_point back t) = false).
Proof.
  intros away box back.
  split; [reflexivity |]. split; [reflexivity |].
  split; [vm_compute; reflexivity |]. split; [vm_compute; reflexivity |].
  intros t T0 T1. unfold box_contains, ray_point, back, reverseRay, box, gridBox,
    AxisAlignedBox_of.
  cbn [mMinimum mMaximum getOrigin getDirection vadd vscale vscale_l vx vy vz grid236
       mWidth mHeight mDepth normalisedCopy length xRays away].
  destruct (Qle_bool (9 + 1 * 7 + - (1) * 1 * t) (of_int 2)) eqn:E.
  - apply Qle_bool_iff in E. unfold of_int in E. change (inject_Z 2) with 2 in E. lra.
  - rewrite andb_false_r. reflexivity.
Qed.

(** A ray that starts past the box and points away from it misses the box
    entirely, and the ray/box test says so; but the reverse ray comes back
    through the origin and meets the far face of the box: the exit point is
    there, not at origin + direction x maxDistance. *)
Lemma getIntersectionEnd_pointing_away :
  let away := mkRay (mkVector3 9 1 1) (mkVector3 1 0 0) in
  let box := gridBox grid236 in
  (forall t, 0 <= t -> box_contains box (ray_point away t) = false) /\
  fst (xRayIntersects away box) = false /\
  veq (getIntersectionEnd (P := xRays) grid236 away 10) (mkVector3 2 1 1) /\
  ~ veq (getIntersectionEnd (P := xRays) grid236 away 10)
        (vadd (getOrigin away) (vscale (getDirection away) 10)).
Proof.
  intros away box. split; [| split; [| split]].
  - intros t T0. unfold box_contains, ray_point, box, gridBox, AxisAlignedBox_of.
    cbn [mMinimum mMaximum getOrigin getDirection vadd vscale vx vy vz grid236
         mWidth mHeight mDepth away].
    destruct (Qle_bool (9 + 1 * t) (of_int 2)) eqn:E.
    + apply Qle_bool_iff in E. unfold of_int in E. change (inject_Z 2) with 2 in E. lra.
    + rewrite andb_false_r. reflexivity.
  - vm_compute. reflexivity.
  - vm_compute. auto.
  - vm_compute. intros (E & _). discriminate.
Qed.

(** *** Bakes on the 4x4x4 lattice *)

(** An operator that throws at the first lattice point: the call ends by
    the exception and the value flag, set before the call, is clear. *)
Lemma combineWithSource_throw_leaves_flag_clear :
  let w0 := world0 (grid4 1 true true spike) throwingOperation in
  let run := combineWithSource seven (mkVector3 2 2 2) 1 w0 in
  snd run = Throws /\
  mTrilinearValue (grid (fst run)) <> mTrilinearValue (grid w0).
Proof. vm_compute. split; [reflexivity | discriminate]. Qed.

(** C2. The iteration box is not converted to lattice index space. On the
    4x4x4 lattice with scale factors 2, a bake with world centre (1,1,1)
    and radius 1/2 returns normally; its bounds are centre plus or minus
    radius truncated with no scale factor, [0,1) on each axis, where the
    conversion to lattice index space gives [1,3).  The one point written,
    (0,0,0), has world position (0,0,0) by the code's own index-to-world
    conversion (lines 250-252), at squared distance 3 from the centre and
    so outside the sphere of squared radius 1/4; the lattice point (2,2,2),
    whose world position is the centre itself and whose scaled position
    [getValue] reads back as index (2,2,2), is not written. *)
Theorem combineWithSource_box_not_scaled :
  let g := grid4 2 false true spike in
  let center := mkVector3 1 1 1 in
  let radius := 1#2 in
  let run := combineWithSource seven center radius (world0 g unionOperation) in
  let d := vsub (latticeToWorld g (0, 0, 0)%Z) center in
  snd run = Returns tt /\
  iterationBox g center radius = Some (mkBounds 0 1 0 1 0 1) /\
  spec_iterationBox g center radius = Some (mkBounds 1 3 1 3 1 3) /\
  iterationBox g center radius <> spec_iterationBox g center radius /\
  writes (events (fst run)) = [(0, 0, 0)%Z] /\
  veq (latticeToWorld g (0, 0, 0)%Z) (mkVector3 0 0 0) /\
  vx d * vx d + vy d * vy d + vz d * vz d == 3 /\
  ~ vx d * vx d + vy d * vy d + vz d * vz d <= radius * radius /\
  veq (latticeToWorld g (2, 2, 2)%Z) center /\
  veq (scaledPosition g center) (mkVector3 2 2 2) /\
  ~ In (2, 2, 2)%Z (writes (events (fst run))).
Proof.
  cbv zeta.
  split; [vm_compute; reflexivity |].
  split; [vm_compute; reflexivity |].
  split; [vm_compute; reflexivity |].
  split; [vm_compute; discriminate |].
  split; [vm_compute; reflexivity |].
  split; [vm_compute; auto |].
  split; [vm_compute; reflexivity |].
  split; [vm_compute; intros L; apply L; reflexivity |].
  split; [vm_compute; auto |].
  split; [vm_compute; auto |].
  vm_compute. intros [E | []]. discriminate.
Qed.

Lemma combineWithSource_writes_in_lattice_witness :
  let g := grid4 1 true true spike in
  let w0 := world0 g unionOperation in
  match combineWithSource seven (mkVector3 3 3 3) 5 w0 with
  | (w', _) => exists l, events w' = events w0 ++ l /\
                         Forall (in_grid g) (writes l) /\
                         mStorage (grid w') = replay l (mStorage g)
  end.
Proof.
  intros g w0.
  destruct (combineWithSource seven (mkVector3 3 3 3) 5 w0) as [w' o] eqn:E.
  exact (combineWithSource_writes_in_lattice seven (mkVector3 3 3 3) 5 w0 w' o E).
Defined.

Lemma combineWithSource_value_flag_witness :
  let w0 := world0 (grid4 1 true true spike) unionOperation in
  match combineWithSource seven (mkVector3 2 2 2) 1 w0 with
  | (w', o) => o = Returns tt /\ mTrilinearValue (grid w') = mTrilinearValue (grid w0)
  end.
Proof.
  intros w0.
  destruct (combineWithSource seven (mkVector3 2 2 2) 1 w0) as [w' o] eqn:E.
  assert (Eo : o = Returns tt).
  { pose proof E as E'. vm_compute in E'. injection E' as _ Ho. symmetry. exact Ho. }
  split; [exact Eo |].
  exact (proj1 (proj2 (combineWithSource_value_flag
                         seven (mkVector3 2 2 2) 1 w0 w' o E)) Eo).
Defined.

Lemma combineWithSource_iteration_box_witness :
  let g := grid4 2 false true spike in
  let w0 := world0 g unionOperation in
  match combineWithSource seven (mkVector3 1 1 1) (1#2) w0 with
  | (w', o) =>
      o = Returns tt /\
      exists b l,
        iterationBox g (mkVector3 1 1 1) (1#2) = Some b /\
        events w' = events w0 ++ l /\
        writes l = boxPoints b
  end.
Proof.
  intros g w0.
  destruct (combineWithSource seven (mkVector3 1 1 1) (1#2) w0) as [w' o] eqn:E.
  assert (Eo : o = Returns tt).
  { pose proof E as E'. vm_compute in E'. injection E' as _ Ho. symmetry. exact Ho. }
  split; [exact Eo |]. subst o.
  destruct (combineWithSource_iteration_box seven (mkVector3 1 1 1) (1#2) w0 w' E)
    as (b & l & EB & _ & _ & El & Wl & _).
  exists b, l. auto.
Defined.

Lemma combineWithSource_frame_witness :
  let g := grid4 1 true true spike in
  let w0 := world0 g unionOperation in
  match combineWithSource seven (mkVector3 2 2 2) 1 w0 with
  | (w', o) =>
      o = Returns tt /\
      exists b,
        iterationBox g (mkVector3 2 2 2) 1 = Some b /\
        same_outside b g (grid w') /\
        same_config g (grid w') /\
        mTrilinearValue (grid w') = mTrilinearValue g
  end.
Proof.
  intros g w0.
  destruct (combineWithSource seven (mkVector3 2 2 2) 1 w0) as [w' o] eqn:E.
  assert (Eo : o = Returns tt).
  { pose proof E as E'. vm_compute in E'. injection E' as _ Ho. symmetry. exact Ho. }
  split; [exact Eo |]. subst o.
  exact (combineWithSource_frame (H0 := dense_lawful)
           seven (mkVector3 2 2 2) 1 w0 w' E).
Defined.

End Runs.

(* ================================================================== *)
(** ** Further properties of the value reconstruction *)

Section ValueShape.
Context {S : Type} `{GridStorage S}.

Lemma of_int_nonneg (n : Z) : (0 <= n)%Z -> 0 <= of_int n.
Proof. intros Hn. unfold of_int. change 0 with (inject_Z 0). rewrite <- Zle_Qle. exact Hn. Qed.

(** A coordinate in [n, n+1) truncates to [n]. *)
Lemma trunc_in_cell (r : Real) (n : Z) :
  (0 <= n)%Z -> of_int n <= r -> r < of_int n + 1 -> trunc r = n.
Proof.
  intros Hn L U. pose proof (of_int_nonneg n Hn) as N0.
  destruct (trunc_nonneg r) as (T0 & T1 & T2); [lra |].
  unfold of_int in *.
  assert ((trunc r < n + 1)%Z).
  { rewrite Zlt_Qlt, inject_Z_plus. change (inject_Z 1) with 1. lra. }
  assert ((n < trunc r + 1)%Z).
  { rewrite Zlt_Qlt, inject_Z_plus. change (inject_Z 1) with 1. lra. }
  lia.
Qed.

(** A coordinate in (n, n+1] has ceiling [n+1]. *)
Lemma Qceiling_in_cell (r : Real) (n : Z) :
  of_int n < r -> r <= of_int n + 1 -> Qceiling r = (n + 1)%Z.
Proof.
  intros L U. pose proof (Qle_ceiling r) as C1. pose proof (Qceiling_lt r) as C2.
  unfold of_int in *. unfold Z.sub in C2. rewrite inject_Z_plus in C2.
  change (inject_Z (Z.opp 1)) with (-(1)) in C2.
  assert ((n < Qceiling r)%Z) by (rewrite Zlt_Qlt; lra).
  assert ((Qceiling r < n + 2)%Z).
  { rewrite Zlt_Qlt, inject_Z_plus. change (inject_Z 2) with 2. lra. }
  lia.
Qed.

(** Between two lattice points that are neighbours along x, at integral y
    and z, the trilinear value is the linear interpolation of the two
    samples: [(1 - d) * f(n,y,z) + d * f(n+1,y,z)] at [x = n + d]. *)
Theorem getValue_trilinear_along_x (g : GridSource S) (p : Vector3) (n y z : Z) (d : Real) :
  mTrilinearValue g = true ->
  vx (scaledPosition g p) == of_int n + d -> 0 < d -> d < 1 ->
  vy (scaledPosition g p) == of_int y ->
  vz (scaledPosition g p) == of_int z ->
  (0 <= n)%Z -> (n + 1 <= SIZE_MAX)%Z ->
  (0 <= y <= SIZE_MAX)%Z -> (0 <= z <= SIZE_MAX)%Z ->
  exists v, getValue g p = Some v /\
            v == (1 - d) * getVolumeGridValue (mStorage g) n y z
                 + d * getVolumeGridValue (mStorage g) (n + 1)%Z y z.
Proof.
  intros T EX D0 D1 EY EZ N0 N1 BY BZ.
  set (sx := vx (scaledPosition g p)) in *.
  assert (X0 : to_size_t sx = Some n).
  { apply to_size_t_intro; [| lia]. apply trunc_in_cell; [exact N0 | lra | lra]. }
  assert (X1 : to_size_t (ceil sx) = Some (n + 1)%Z).
  { apply to_size_t_intro; [| lia]. unfold ceil.
    rewrite (Qceiling_in_cell sx n) by lra. apply (trunc_of_int (n + 1)). }
  unfold getValue. rewrite T. fold sx. rewrite X0, X1.
  rewrite (to_size_t_integral _ _ EY BY), (to_size_t_integral _ _ (ceil_integral _ _ EY) BY).
  rewrite (to_size_t_integral _ _ EZ BZ), (to_size_t_integral _ _ (ceil_integral _ _ EZ) BZ).
  cbn [obind]. eexists. split; [reflexivity |].
  unfold blend. cbv zeta. rewrite EY, EZ, EX. ring.
Qed.

(** Just below the low corner of the lattice, with every scaled coordinate
    in (-1, 0], every sample fetched is the one at (0,0,0), in both
    branches: the conversions truncate toward zero, so floor and ceiling
    index are both 0 and the nearest index is 0.  With the value flag clear
    the value is that sample; with it set the value is the blend of eight
    copies of that sample, the fractions being the scaled coordinates
    themselves. *)
Theorem getValue_below_origin (g : GridSource S) (p : Vector3) :
  -(1) < vx (scaledPosition g p) -> vx (scaledPosition g p) <= 0 ->
  -(1) < vy (scaledPosition g p) -> vy (scaledPosition g p) <= 0 ->
  -(1) < vz (scaledPosition g p) -> vz (scaledPosition g p) <= 0 ->
  let sp := scaledPosition g p in
  let s := getVolumeGridValue (mStorage g) 0 0 0 in
  valuePoints g p <> [] /\
  (forall c, In c (valuePoints g p) -> c = (0, 0, 0)%Z) /\
  (mTrilinearValue g = false -> getValue g p = Some s) /\
  (mTrilinearValue g = true ->
   getValue g p = Some (blend s s s s s s s s
                              (vx sp - of_int 0) (vy sp - of_int 0) (vz sp - of_int 0))).
Proof.
  intros LX UX LY UY LZ UZ sp s.
  assert (B : (0 <= 0 <= SIZE_MAX)%Z) by (unfold SIZE_MAX; lia).
  assert (Tr : forall r, -(1) < r -> r <= 0 ->
            to_size_t r = Some 0%Z /\ to_size_t (ceil r) = Some 0%Z /\
            to_size_t (r + (1#2)) = Some 0%Z).
  { intros r L U.
    assert (C0 : Qceiling r = 0%Z).
    { pose proof (Qle_ceiling r) as C1. pose proof (Qceiling_lt r) as C2.
      unfold Z.sub in C2. rewrite inject_Z_plus in C2.
      change (inject_Z (Z.opp 1)) with (-(1)) in C2.
      assert ((Qceiling r <= 0)%Z).
      { change 0%Z with (Qceiling 0). apply Qceiling_resp_le. exact U. }
      assert ((-1 < Qceiling r)%Z).
      { rewrite Zlt_Qlt. change (inject_Z (-1)) with (-(1)). lra. }
      lia. }
    split; [| split].
    - apply to_size_t_intro; [| exact B]. unfold trunc.
      destruct (Qle_bool 0 r) eqn:E; [| exact C0].
      apply Qle_bool_iff in E. rewrite (Qfloor_comp r 0) by lra. reflexivity.
    - apply to_size_t_intro; [| exact B]. unfold ceil. rewrite C0. reflexivity.
    - apply to_size_t_intro; [| exact B].
      destruct (Qlt_le_dec (r + (1#2)) 0) as [Neg | Pos].
      + unfold trunc. destruct (Qle_bool 0 (r + (1#2))) eqn:E.
        * apply Qle_bool_iff in E. lra.
        * pose proof (Qle_ceiling (r + (1#2))) as C1.
          pose proof (Qceiling_lt (r + (1#2))) as C2.
          unfold Z.sub in C2. rewrite inject_Z_plus in C2.
          change (inject_Z (Z.opp 1)) with (-(1)) in C2.
          assert ((Qceiling (r + (1#2)) <= 0)%Z).
          { change 0%Z with (Qceiling 0). apply Qceiling_resp_le. lra. }
          assert ((-1 < Qceiling (r + (1#2)))%Z).
          { rewrite Zlt_Qlt. change (inject_Z (-1)) with (-(1)). lra. }
          lia.
      + apply (trunc_in_cell _ 0); [lia | exact Pos |].
        change (of_int 0) with 0. lra. }
  destruct (Tr _ LX UX) as (X0 & X1 & XN).
  destruct (Tr _ LY UY) as (Y0 & Y1 & YN).
  destruct (Tr _ LZ UZ) as (Z0 & Z1 & ZN).
  unfold valuePoints, getValue. destruct (mTrilinearValue g).
  - rewrite X0, X1, Y0, Y1, Z0, Z1. cbn [obind].
    split; [discriminate |]. split; [| split; [discriminate | reflexivity]].
    intros c Hin. cbn in Hin. intuition congruence.
  - rewrite XN, YN, ZN. cbn [obind].
    split; [discriminate |]. split; [| split; [reflexivity | discriminate]].
    intros c Hin. cbn in Hin. intuition congruence.
Qed.

(** When a conversion to [size_t] is defined. *)
Lemma to_size_t_defined (r : Real) :
  (exists n, to_size_t r = Some n) <-> -(1) < r /\ r < of_int SIZE_MAX + 1.
Proof.
  assert (M : (0 <= SIZE_MAX)%Z) by (unfold SIZE_MAX; lia).
  pose proof (of_int_nonneg _ M) as M0. unfold of_int in *.
  split.
  - intros (n & E). apply to_size_t_Some in E. destruct E as (<- & B0 & B1).
    unfold trunc in *. destruct (Qle_bool 0 r) eqn:E.
    + apply Qle_bool_iff in E. split; [lra |].
      pose proof (Qlt_floor r) as F. rewrite inject_Z_plus in F.
      change (inject_Z 1) with 1 in F. rewrite Zle_Qle in B1. lra.
    + assert (R : r < 0).
      { destruct (Qlt_le_dec r 0) as [R | R]; [exact R |].
        apply Qle_bool_iff in R. congruence. }
      split; [| lra].
      pose proof (Qceiling_lt r) as C. unfold Z.sub in C. rewrite inject_Z_plus in C.
      change (inject_Z (Z.opp 1)) with (-(1)) in C. rewrite Zle_Qle in B0.
      change (inject_Z 0) with 0 in B0. lra.
  - intros (L & U). exists (trunc r). apply to_size_t_intro; [reflexivity |].
    unfold trunc. destruct (Qle_bool 0 r) eqn:E.
    + apply Qle_bool_iff in E. split.
      * change 0%Z with (Qfloor 0). apply Qfloor_resp_le. exact E.
      * pose proof (Qfloor_le r) as F.
        assert ((Qfloor r < SIZE_MAX + 1)%Z).
        { rewrite Zlt_Qlt, inject_Z_plus. change (inject_Z 1) with 1. lra. }
        lia.
    + assert (R : r < 0).
      { destruct (Qlt_le_dec r 0) as [R | R]; [exact R |].
        apply Qle_bool_iff in R. congruence. }
      pose proof (Qle_ceiling r) as C.
      assert ((Qceiling r <= 0)%Z).
      { change 0%Z with (Qceiling 0). apply Qceiling_resp_le. lra. }
      assert ((-1 < Qceiling r)%Z).
      { rewrite Zlt_Qlt. change (inject_Z (-1)) with (-(1)). lra. }
      lia.
Qed.

Lemma to_size_t_ceil_defined (r : Real) :
  (exists n, to_size_t (ceil r) = Some n) <-> -(1) < r /\ r <= of_int SIZE_MAX.
Proof.
  unfold ceil. pose proof (Qle_ceiling r) as C1. pose proof (Qceiling_lt r) as C2.
  unfold Z.sub in C2. rewrite inject_Z_plus in C2.
  change (inject_Z (Z.opp 1)) with (-(1)) in C2.
  pose proof (trunc_of_int (Qceiling r)) as TC. unfold of_int in *.
  split.
  - intros (n & E). apply to_size_t_Some in E. destruct E as (E & B0 & B1).
    rewrite TC in E. subst n.
    rewrite Zle_Qle in B0, B1. change (inject_Z 0) with 0 in B0. split; lra.
  - intros (L & U). exists (Qceiling r). apply to_size_t_intro.
    + exact TC.
    + assert ((-1 < Qceiling r)%Z).
      { rewrite Zlt_Qlt. change (inject_Z (-1)) with (-(1)). lra. }
      assert ((Qceiling r < SIZE_MAX + 1)%Z).
      { rewrite Zlt_Qlt, inject_Z_plus. change (inject_Z 1) with 1. lra. }
      lia.
Qed.

(** [getValue] is defined exactly on [value_domain]: in the trilinear
    branch each scaled coordinate must be above -1 and at most [SIZE_MAX],
    in the nearest branch between -3/2 and [SIZE_MAX] + 1/2; elsewhere a
    conversion to [size_t] is out of range. *)
Theorem getValue_defined_iff (g : GridSource S) (p : Vector3) :
  (exists v, getValue g p = Some v) <-> value_domain g p.
Proof.
  unfold getValue, value_domain.
  set (sx := vx (scaledPosition g p)). set (sy := vy (scaledPosition g p)).
  set (sz := vz (scaledPosition g p)).
  pose proof (to_size_t_defined sx) as DX. pose proof (to_size_t_ceil_defined sx) as CX.
  pose proof (to_size_t_defined sy) as DY. pose proof (to_size_t_ceil_defined sy) as CY.
  pose proof (to_size_t_defined sz) as DZ. pose proof (to_size_t_ceil_defined sz) as CZ.
  pose proof (to_size_t_defined (sx + (1#2))) as NX.
  pose proof (to_size_t_defined (sy + (1#2))) as NY.
  pose proof (to_size_t_defined (sz + (1#2))) as NZ.
  destruct (mTrilinearValue g).
  - split.
    + intros (v & E).
      destruct (to_size_t sx) as [x0 |]; [| discriminate].
      destruct (to_size_t (ceil sx)) as [x1 |]; [| discriminate].
      destruct (to_size_t sy) as [y0 |]; [| discriminate].
      destruct (to_size_t (ceil sy)) as [y1 |]; [| discriminate].
      destruct (to_size_t sz) as [z0 |]; [| discriminate].
      destruct (to_size_t (ceil sz)) as [z1 |]; [| discriminate].
      split; [| split]; [apply CX | apply CY | apply CZ]; eexists; reflexivity.
    + intros (OX & OY & OZ).
      destruct (proj2 CX OX) as (x1 & X1). destruct (proj2 CY OY) as (y1 & Y1).
      destruct (proj2 CZ OZ) as (z1 & Z1).
      destruct (proj2 DX) as (x0 & X0); [lra |].
      destruct (proj2 DY) as (y0 & Y0); [lra |].
      destruct (proj2 DZ) as (z0 & Z0); [lra |].
      rewrite X0, X1, Y0, Y1, Z0, Z1. cbn [obind]. eexists. reflexivity.
  - split.
    + intros (v & E).
      destruct (to_size_t (sx + (1#2))) as [x |]; [| discriminate].
      destruct (to_size_t (sy + (1#2))) as [y |]; [| discriminate].
      destruct (to_size_t (sz + (1#2))) as [z |]; [| discriminate].
      destruct (proj1 NX) as (? & ?); [eexists; reflexivity |].
      destruct (proj1 NY) as (? & ?); [eexists; reflexivity |].
      destruct (proj1 NZ) as (? & ?); [eexists; reflexivity |].
      repeat split; lra.
    + intros (OX & OY & OZ).
      destruct (proj2 NX) as (x & X); [lra |].
      destruct (proj2 NY) as (y & Y); [lra |].
      destruct (proj2 NZ) as (z & Z); [lra |].
      rewrite X, Y, Z. cbn [obind]. eexists. reflexivity.
Qed.

End ValueShape.

(* ================================================================== *)
(** ** Further properties of the combined call *)

Section LatticePoint.
Context {S : Type} `{GridStorage S}.

Lemma to_size_t_half_integral (r : Real) (n : Z) :
  r == of_int n -> (0 <= n <= SIZE_MAX)%Z -> to_size_t (r + (1#2)) = Some n.
Proof.
  intros E B. apply (to_size_t_half r n 0); [lra | lra | lra | exact B].
Qed.

(** At an exact lattice point the four sampling modes agree: whatever the
    two flags, [getValueAndGradient] returns the negated gradient of that
    point and its stored sample. *)
Theorem getValueAndGradient_at_lattice_point
        (g : GridSource S) (p : Vector3) (x y z : Z) :
  vx (scaledPosition g p) == of_int x ->
  vy (scaledPosition g p) == of_int y ->
  vz (scaledPosition g p) == of_int z ->
  (0 <= x <= SIZE_MAX)%Z -> (0 <= y <= SIZE_MAX)%Z -> (0 <= z <= SIZE_MAX)%Z ->
  let grad := getGradient (mSobelGradient g) (mStorage g) x y z in
  exists v, getValueAndGradient g p = Some v /\
            v4x v == - vx grad /\ v4y v == - vy grad /\ v4z v == - vz grad /\
            v4w v == getVolumeGridValue (mStorage g) x y z.
Proof.
  intros EX EY EZ BX BY BZ grad.
  assert (V : exists value, getValue g p = Some value /\
                            value == getVolumeGridValue (mStorage g) x y z).
  { destruct (mTrilinearValue g) eqn:T.
    - apply getValue_trilinear_integral; assumption.
    - unfold getValue. rewrite T.
      rewrite (to_size_t_half_integral _ _ EX BX), (to_size_t_half_integral _ _ EY BY),
        (to_size_t_half_integral _ _ EZ BZ).
      cbn [obind]. eexists. split; reflexivity. }
  destruct V as (value & EV & QV).
  unfold getValueAndGradient, getNormal. rewrite EV.
  destruct (mTrilinearGradient g).
  - rewrite (to_size_t_integral _ _ EX BX), (to_size_t_integral _ _ (ceil_integral _ _ EX) BX).
    rewrite (to_size_t_integral _ _ EY BY), (to_size_t_integral _ _ (ceil_integral _ _ EY) BY).
    rewrite (to_size_t_integral _ _ EZ BZ), (to_size_t_integral _ _ (ceil_integral _ _ EZ) BZ).
    cbn [obind]. eexists. split; [reflexivity |].
    cbn [v4x v4y v4z v4w vscale vblend vx vy vz]. fold grad.
    assert (DX : vx (scaledPosition g p) - of_int x == 0) by (rewrite EX; ring).
    assert (DY : vy (scaledPosition g p) - of_int y == 0) by (rewrite EY; ring).
    assert (DZ : vz (scaledPosition g p) - of_int z == 0) by (rewrite EZ; ring).
    rewrite !(blend_zero _ _ _ _ _ _ _ _ _ _ _ DX DY DZ).
    split; [ring |]. split; [ring |]. split; [ring | exact QV].
  - rewrite (to_size_t_half_integral _ _ EX BX), (to_size_t_half_integral _ _ EY BY),
      (to_size_t_half_integral _ _ EZ BZ).
    cbn [obind]. eexists. split; [reflexivity |].
    cbn [v4x v4y v4z v4w vscale vx vy vz]. fold grad.
    split; [ring |]. split; [ring |]. split; [ring | exact QV].
Qed.

End LatticePoint.

(* ================================================================== *)
(** ** Further properties of the region bake *)

Section BakeOrder.
Context {S : Type} `{GridStorage S}.

Lemma for_each_ext {A} (l : list A) (body1 body2 : A -> M S unit) :
  (forall a w, body1 a w = body2 a w) ->
  forall w, for_each l body1 w = for_each l body2 w.
Proof.
  intros E. induction l as [| a l IH]; intros w; cbn [for_each]; [reflexivity |].
  unfold bind. rewrite E. destruct (body2 a w) as [w1 [[] | |]]; auto.
Qed.

Lemma for_each_app {A} (l1 l2 : list A) (body : A -> M S unit) (w : World S) :
  for_each (l1 ++ l2) body w = bind (for_each l1 body) (fun _ => for_each l2 body) w.
Proof.
  revert w. induction l1 as [| a l1 IH]; intros w; cbn [for_each app].
  - reflexivity.
  - unfold bind in *.
    destruct (body a w) as [w1 [[] | |]]; [apply IH | reflexivity | reflexivity].
Qed.

Lemma for_each_flat_map {A B} (f : A -> list B) (l : list A) (body : B -> M S unit)
      (w : World S) :
  for_each (flat_map f l) body w = for_each l (fun a => for_each (f a) body) w.
Proof.
  revert w. induction l as [| a l IH]; intros w; cbn [for_each flat_map].
  - reflexivity.
  - rewrite for_each_app. unfold bind.
    destruct (for_each (f a) body w) as [w1 [[] | |]]; [apply IH | reflexivity | reflexivity].
Qed.

Lemma for_each_map {A B} (f : A -> B) (l : list A) (body : B -> M S unit) (w : World S) :
  for_each (map f l) body w = for_each l (fun a => body (f a)) w.
Proof.
  revert w. induction l as [| a l IH]; intros w; cbn [for_each map]; [reflexivity |].
  unfold bind. destruct (body (f a) w) as [w1 [[] | |]]; [apply IH | reflexivity | reflexivity].
Qed.

Lemma for_count_for_each (n : nat) (i : Z) (body : Z -> M S unit) (w : World S) :
  for_count n i body w = for_each (zseq i n) body w.
Proof.
  revert i w. induction n as [| n IH]; intros i w; cbn [for_count zseq for_each].
  - reflexivity.
  - unfold bind. destruct (body i w) as [w1 [[] | |]]; [apply IH | reflexivity | reflexivity].
Qed.

Lemma for_range_for_each (lo hi : Z) (body : Z -> M S unit) (w : World S) :
  for_range lo hi body w = for_each (range lo hi) body w.
Proof. apply for_count_for_each. Qed.

(** The three nested loops are one pass over the lattice points of the box,
    z outermost and x innermost. *)
Lemma bakeLoop_for_each (source : Source) (b : Box) (sx sy sz : Real) (w : World S) :
  bakeLoop source b sx sy sz w = for_each (boxPoints b) (bakeStep source sx sy sz) w.
Proof.
  unfold bakeLoop, boxPoints.
  rewrite for_range_for_each, for_each_flat_map.
  apply for_each_ext. intros z w1.
  rewrite for_range_for_each, for_each_flat_map.
  apply for_each_ext. intros y w2.
  rewrite for_range_for_each, for_each_map.
  reflexivity.
Qed.

Lemma evaluated_app (l1 l2 : list (Event S)) :
  evaluated (l1 ++ l2) = evaluated l1 ++ evaluated l2.
Proof.
  induction l1 as [| [g p | x y z v] l1 IH]; cbn; [reflexivity | | exact IH].
  rewrite IH. reflexivity.
Qed.

Lemma set_mStorage_same (g : GridSource S) : set_mStorage (mStorage g) g = g.
Proof. destruct g. reflexivity. Qed.

(** The loop body at one lattice point: the operator is called, and its
    value, if it returns one, is stored. *)
Lemma bakeStep_run (source : Source) (sx sy sz : Real) (x y z : Z) (w : World S) :
  let pos := indexPosition sx sy sz (x, y, z) in
  let logged := events w ++ [EvGetValue (grid w) pos] in
  bakeStep source sx sy sz (x, y, z) w =
  match evaluate (operation w) (option_map (deref w source) (mA (operation w)))
                 (option_map (deref w source) (mB (operation w))) pos with
  | Returns v =>
      (mkWorld (set_mStorage (setVolumeGridValue (mStorage (grid w)) x y z v) (grid w))
               (operation w) (logged ++ [EvSetValue x y z v]), Returns tt)
  | Throws => (mkWorld (grid w) (operation w) logged, Throws)
  | Undefined => (mkWorld (grid w) (operation w) logged, Undefined)
  end.
Proof.
  cbv zeta. unfold bakeStep, indexPosition, bind, operation_getValue,
    this_setVolumeGridValue, bind, emit, modifyGrid.
  cbn [grid operation events].
  destruct (evaluate (operation w) _ _ _); reflexivity.
Qed.

(** One pass of the loop body over a list of lattice points, however it
    ends: the points are written in order up to the first one whose
    evaluation does not return; that one has been evaluated and not
    written.  Only the storage and the log change. *)
Lemma for_each_bakeStep_log (source : Source) (sx sy sz : Real) (cs : list (Z * Z * Z)) :
  forall (w w' : World S) (o : outcome unit),
  for_each cs (bakeStep source sx sy sz) w = (w', o) ->
  exists l done rest,
    events w' = events w ++ l /\
    cs = done ++ rest /\
    writes l = done /\
    grid w' = set_mStorage (replay l (mStorage (grid w))) (grid w) /\
    operation w' = operation w /\
    (o = Returns tt -> rest = [] /\ evaluated l = map (indexPosition sx sy sz) cs) /\
    (o <> Returns tt ->
     exists c rest', rest = c :: rest' /\
                     evaluated l = map (indexPosition sx sy sz) (done ++ [c])).
Proof.
  induction cs as [| c cs IH]; intros w w' o; cbn [for_each].
  - intros E. injection E as <- <-. exists [], [], [].
    rewrite app_nil_r. cbn. rewrite set_mStorage_same.
    repeat split; try reflexivity. intros N. contradiction N. reflexivity.
  - destruct c as [[x y] z]. unfold bind. rewrite bakeStep_run. cbv zeta.
    set (pos := indexPosition sx sy sz (x, y, z)).
    destruct (evaluate (operation w) _ _ pos) as [v | |].
    + intros E. apply IH in E.
      destruct E as (l & done & rest & El & Ecs & Wl & Gl & Ol & Ret & Abn).
      cbn [grid operation events set_mStorage mStorage] in El, Gl, Ol.
      exists ([EvGetValue (grid w) pos; EvSetValue x y z v] ++ l), ((x, y, z) :: done), rest.
      split; [rewrite El, <- !app_assoc; reflexivity |].
      split; [rewrite Ecs; reflexivity |].
      split; [cbn; rewrite Wl; reflexivity |].
      split; [rewrite Gl; reflexivity |].
      split; [exact Ol |].
      split.
      * intros Eo. destruct (Ret Eo) as (-> & Ev). split; [reflexivity |].
        cbn. rewrite Ev. reflexivity.
      * intros No. destruct (Abn No) as (c & rest' & -> & Ev).
        exists c, rest'. split; [reflexivity |]. cbn. rewrite Ev. reflexivity.
    + intros E. injection E as <- <-.
      exists [EvGetValue (grid w) pos], [], ((x, y, z) :: cs).
      cbn. rewrite set_mStorage_same.
      repeat split; try reflexivity; try discriminate.
      intros _. exists (x, y, z), cs. split; reflexivity.
    + intros E. injection E as <- <-.
      exists [EvGetValue (grid w) pos], [], ((x, y, z) :: cs).
      cbn. rewrite set_mStorage_same.
      repeat split; try reflexivity; try discriminate.
      intros _. exists (x, y, z), cs. split; reflexivity.
Qed.

End BakeOrder.

Section BakeRuns.
Context {S : Type} `{GridStorage S}.

Lemma latticeToWorld_indexPosition (g : GridSource S) (c : Z * Z * Z) :
  latticeToWorld g c =
  indexPosition (1 / mPosXScale g) (1 / mPosYScale g) (1 / mPosZScale g) c.
Proof. destruct c as [[x y] z]. reflexivity. Qed.

(** The call in terms of one pass over the box. *)
Lemma combineWithSource_pass (source : Source) (center : Vector3) (radius : Real)
      (w0 w' : World S) (o : outcome unit) (b : Box) :
  combineWithSource source center radius w0 = (w', o) ->
  iterationBox (grid w0) center radius = Some b ->
  exists w2,
    for_each (boxPoints b)
      (bakeStep source (1 / mPosXScale (grid w0)) (1 / mPosYScale (grid w0))
                (1 / mPosZScale (grid w0))) (bakeStart w0) = (w2, o) /\
    events w' = events w2 /\ operation w' = operation w2 /\
    mStorage (grid w') = mStorage (grid w2) /\
    same_config (grid w2) (grid w') /\
    (o = Returns tt -> mTrilinearValue (grid w') = mTrilinearValue (grid w0)) /\
    (o <> Returns tt -> w' = w2).
Proof.
  rewrite combineWithSource_unfold. cbv zeta. intros E EB. rewrite EB in E.
  rewrite bakeLoop_for_each in E.
  destruct (for_each (boxPoints b) _ (bakeStart w0)) as [w2 o2] eqn:EL.
  exists w2.
  destruct o2 as [[] | |]; injection E as <- <-; cbn [grid operation events];
    (split; [reflexivity |]); unfold same_config; cbn;
    repeat split; try reflexivity; try discriminate;
    intros N; contradiction N; reflexivity.
Qed.

(** The operands are bound whatever happens next: after the call operand A
    is this grid and operand B the other field, and the operator is
    otherwise the one passed in. *)
Theorem combineWithSource_binds_operands
        (source : Source) (center : Vector3) (radius : Real)
        (w0 w' : World S) (o : outcome unit) :
  combineWithSource source center radius w0 = (w', o) ->
  mA (operation w') = Some ThisGrid /\
  mB (operation w') = Some OtherSource /\
  evaluate (operation w') = evaluate (operation w0).
Proof.
  intros E.
  destruct (iterationBox (grid w0) center radius) as [b |] eqn:EB.
  - destruct (combineWithSource_pass _ _ _ _ _ _ _ E EB) as (w2 & EL & _ & Ow & _).
    destruct (for_each_bakeStep_log _ _ _ _ _ _ _ _ EL) as (l & done & rest & _ & _ & _ & _ & O2 & _).
    rewrite Ow, O2. cbn. auto.
  - rewrite combineWithSource_unfold in E. cbv zeta in E. rewrite EB in E.
    injection E as <- <-. cbn. auto.
Qed.

(** A call that returns has evaluated the operator exactly once per lattice
    point of the box, at the point's world position (index times inverted
    scale factor on each axis), z outermost and x innermost. *)
Theorem combineWithSource_evaluation_order
        (source : Source) (center : Vector3) (radius : Real) (w0 w' : World S) :
  combineWithSource source center radius w0 = (w', Returns tt) ->
  exists b l,
    iterationBox (grid w0) center radius = Some b /\
    events w' = events w0 ++ l /\
    evaluated l = map (latticeToWorld (grid w0)) (boxPoints b).
Proof.
  intros E.
  destruct (iterationBox (grid w0) center radius) as [b |] eqn:EB.
  - destruct (combineWithSource_pass _ _ _ _ _ _ _ E EB) as (w2 & EL & Ev & _).
    destruct (for_each_bakeStep_log _ _ _ _ _ _ _ _ EL)
      as (l & done & rest & El & _ & _ & _ & _ & Ret & _).
    destruct (Ret eq_refl) as (_ & Evl).
    exists b, l. split; [reflexivity |]. split; [rewrite Ev; exact El |].
    rewrite Evl. apply map_ext. intros c. symmetry. apply latticeToWorld_indexPosition.
  - rewrite combineWithSource_unfold in E. cbv zeta in E. rewrite EB in E. discriminate.
Qed.

Lemma trunc_sign (r : Real) :
  (0 <= r -> (0 <= trunc r)%Z /\ inject_Z (trunc r) <= r) /\
  (r < 0 -> (trunc r <= 0)%Z /\ r <= inject_Z (trunc r)).
Proof.
  split.
  - intros R. destruct (trunc_nonneg r R) as (T0 & T1 & _). auto.
  - intros R. unfold trunc. destruct (Qle_bool 0 r) eqn:E.
    + apply Qle_bool_iff in E. lra.
    + split; [| apply Qle_ceiling].
      change 0%Z with (Qceiling 0). apply Qceiling_resp_le. lra.
Qed.

(** Truncation toward zero is monotone. *)
Lemma trunc_le_mono (a b : Real) : a <= b -> (trunc a <= trunc b)%Z.
Proof.
  intros L. unfold trunc.
  destruct (Qle_bool 0 a) eqn:EA; destruct (Qle_bool 0 b) eqn:EB.
  - apply Qfloor_resp_le. exact L.
  - apply Qle_bool_iff in EA.
    assert (b < 0).
    { destruct (Qlt_le_dec b 0) as [R | R]; [exact R |].
      apply Qle_bool_iff in R. congruence. }
    lra.
  - apply Qle_bool_iff in EB.
    assert (A : a < 0).
    { destruct (Qlt_le_dec a 0) as [R | R]; [exact R |].
      apply Qle_bool_iff in R. congruence. }
    assert ((Qceiling a <= 0)%Z).
    { change 0%Z with (Qceiling 0). apply Qceiling_resp_le. lra. }
    assert ((0 <= Qfloor b)%Z).
    { change 0%Z with (Qfloor 0). apply Qfloor_resp_le. exact EB. }
    lia.
  - apply Qceiling_resp_le. exact L.
Qed.

Lemma to_int_defined (r : Real) : int_convertible r -> to_int r = Some (trunc r).
Proof.
  intros (L & U). unfold to_int.
  assert (I : (INT_MIN <= 0 <= INT_MAX)%Z) by (unfold INT_MIN, INT_MAX; lia).
  destruct (trunc_sign r) as (Pos & Neg). unfold of_int in *.
  assert (B : (INT_MIN <= trunc r <= INT_MAX)%Z).
  { destruct (Qlt_le_dec r 0) as [R | R].
    - destruct (Neg R) as (T0 & T1).
      assert ((INT_MIN - 1 < trunc r)%Z).
      { rewrite Zlt_Qlt. unfold Z.sub. rewrite inject_Z_plus.
        change (inject_Z (Z.opp 1)) with (-(1)). lra. }
      lia.
    - destruct (Pos R) as (T0 & T1).
      assert ((trunc r < INT_MAX + 1)%Z).
      { rewrite Zlt_Qlt, inject_Z_plus. change (inject_Z 1) with 1. lra. }
      lia. }
  destruct B as [B1 B2]. apply Z.leb_le in B1. apply Z.leb_le in B2.
  rewrite B1, B2. reflexivity.
Qed.

Lemma iterationBox_defined (g : GridSource S) (center : Vector3) (radius : Real) :
  int_convertible (vx center - radius) -> int_convertible (vx center + radius) ->
  int_convertible (vy center - radius) -> int_convertible (vy center + radius) ->
  int_convertible (vz center - radius) -> int_convertible (vz center + radius) ->
  exists b, iterationBox g center radius = Some b.
Proof.
  intros X0 X1 Y0 Y1 Z0 Z1. unfold iterationBox.
  rewrite (to_int_defined _ X0), (to_int_defined _ X1), (to_int_defined _ Y0),
    (to_int_defined _ Y1), (to_int_defined _ Z0), (to_int_defined _ Z1).
  cbn [obind]. eexists. reflexivity.
Qed.

(** When centre plus and minus radius convert to [int] on the three axes
    and the operator returns a value whatever it is asked, the call
    returns. *)
Theorem combineWithSource_completes
        (source : Source) (center : Vector3) (radius : Real) (w0 : World S) :
  int_convertible (vx center - radius) -> int_convertible (vx center + radius) ->
  int_convertible (vy center - radius) -> int_convertible (vy center + radius) ->
  int_convertible (vz center - radius) -> int_convertible (vz center + radius) ->
  never_fails (operation w0) ->
  exists w', combineWithSource source center radius w0 = (w', Returns tt).
Proof.
  intros X0 X1 Y0 Y1 Z0 Z1 NF.
  destruct (iterationBox_defined (grid w0) center radius X0 X1 Y0 Y1 Z0 Z1) as (b & EB).
  exact (combineWithSource_returns source center radius w0 b EB NF).
Qed.

(** *** Boxes without a lattice point *)

Lemma range_empty (lo hi : Z) : (hi <= lo)%Z -> range lo hi = [].
Proof.
  intros L. unfold range. replace (Z.to_nat (hi - lo)) with O by lia. reflexivity.
Qed.

Lemma flat_map_nil {A B} (f : A -> list B) (l : list A) :
  (forall a, f a = []) -> flat_map f l = [].
Proof.
  intros E. induction l as [| a l IH]; cbn; [reflexivity |]. rewrite E, IH. reflexivity.
Qed.

Lemma boxPoints_empty (b : Box) :
  (xEnd b <= xStart b \/ yEnd b <= yStart b \/ zEnd b <= zStart b)%Z ->
  boxPoints b = [].
Proof.
  intros [E | [E | E]]; unfold boxPoints.
  - apply flat_map_nil. intros z. apply flat_map_nil. intros y.
    rewrite (range_empty _ _ E). reflexivity.
  - apply flat_map_nil. intros z. rewrite (range_empty _ _ E). reflexivity.
  - rewrite (range_empty _ _ E). reflexivity.
Qed.

(** With an empty box the operator is never called and nothing is written:
    only the operand binding is left of the call. *)
Lemma combineWithSource_empty_box
      (source : Source) (center : Vector3) (radius : Real)
      (w0 w' : World S) (o : outcome unit) (b : Box) :
  combineWithSource source center radius w0 = (w', o) ->
  iterationBox (grid w0) center radius = Some b ->
  boxPoints b = [] ->
  o = Returns tt /\ events w' = events w0 /\ mStorage (grid w') = mStorage (grid w0) /\
  mTrilinearValue (grid w') = mTrilinearValue (grid w0).
Proof.
  intros E EB Emp.
  destruct (combineWithSource_pass _ _ _ _ _ _ _ E EB) as (w2 & EL & Ev & _ & St & _ & Fl & _).
  rewrite Emp in EL. cbn in EL. injection EL as <- <-.
  rewrite Ev, St. cbn. auto.
Qed.

Lemma Clamp_mono (a b lo hi : Z) : (a <= b)%Z -> (Clamp a lo hi <= Clamp b lo hi)%Z.
Proof. unfold Clamp. lia. Qed.

(** A radius that is zero or negative bakes nothing: the end bound of each
    axis is then at most its start bound.  The operator is not called, the
    storage and the value flag are those of before the call, and the call
    does not throw. *)
Theorem combineWithSource_radius_not_positive
        (source : Source) (center : Vector3) (radius : Real)
        (w0 w' : World S) (o : outcome unit) :
  radius <= 0 ->
  combineWithSource source center radius w0 = (w', o) ->
  events w' = events w0 /\ mStorage (grid w') = mStorage (grid w0) /\ o <> Throws /\
  (o = Returns tt -> mTrilinearValue (grid w') = mTrilinearValue (grid w0)).
Proof.
  intros R E.
  destruct (iterationBox (grid w0) center radius) as [b |] eqn:EB.
  - assert (Emp : boxPoints b = []).
    { apply boxPoints_empty. left.
      rewrite (iterationBox_Some _ _ _ _ EB). cbn [xStart xEnd].
      apply Clamp_mono. apply trunc_le_mono. lra. }
    destruct (combineWithSource_empty_box _ _ _ _ _ _ _ E EB Emp) as (-> & Ev & St & Fl).
    split; [exact Ev |]. split; [exact St |]. split; [discriminate |]. intros _. exact Fl.
  - rewrite combineWithSource_unfold in E. cbv zeta in E. rewrite EB in E.
    injection E as <- <-. cbn.
    split; [reflexivity |]. split; [reflexivity |]. split; discriminate.
Qed.

(** A sphere whose bounding box lies off the lattice on some axis (below 1
    at its upper end, or at or beyond the dimension at its lower end)
    bakes nothing. *)
Theorem combineWithSource_off_lattice
        (source : Source) (center : Vector3) (radius : Real)
        (w0 w' : World S) (o : outcome unit) :
  (vx center + radius < 1 \/ of_int (mWidth (grid w0)) <= vx center - radius \/
   vy center + radius < 1 \/ of_int (mHeight (grid w0)) <= vy center - radius \/
   vz center + radius < 1 \/ of_int (mDepth (grid w0)) <= vz center - radius) ->
  combineWithSource source center radius w0 = (w', o) ->
  events w' = events w0 /\ mStorage (grid w') = mStorage (grid w0) /\ o <> Throws.
Proof.
  intros Off E.
  assert (Low : forall r, r < 1 -> (trunc r <= 0)%Z).
  { intros r R. destruct (trunc_sign r) as (Pos & Neg).
    destruct (Qlt_le_dec r 0) as [N | P]; [apply Neg; exact N |].
    destruct (Pos P) as (T0 & T1).
    assert ((trunc r < 1)%Z) by (rewrite Zlt_Qlt; change (inject_Z 1) with 1; lra).
    lia. }
  assert (High : forall r d, of_int d <= r -> (d <= trunc r)%Z \/ (d <= 0)%Z).
  { intros r d R. destruct (Z_le_gt_dec d 0) as [D | D]; [right; exact D | left].
    rewrite <- (trunc_of_int d). apply trunc_le_mono. exact R. }
  destruct (iterationBox (grid w0) center radius) as [b |] eqn:EB.
  - assert (Emp : boxPoints b = []).
    { apply boxPoints_empty. rewrite (iterationBox_Some _ _ _ _ EB).
      cbn [xStart xEnd yStart yEnd zStart zEnd]. unfold Clamp.
      destruct Off as [O | [O | [O | [O | [O | O]]]]].
      - left. pose proof (Low _ O). lia.
      - left. destruct (High _ _ O); lia.
      - right; left. pose proof (Low _ O). lia.
      - right; left. destruct (High _ _ O); lia.
      - right; right. pose proof (Low _ O). lia.
      - right; right. destruct (High _ _ O); lia. }
    destruct (combineWithSource_empty_box _ _ _ _ _ _ _ E EB Emp) as (-> & Ev & St & Fl).
    split; [exact Ev |]. split; [exact St |]. discriminate.
  - rewrite combineWithSource_unfold in E. cbv zeta in E. rewrite EB in E.
    injection E as <- <-. cbn.
    split; [reflexivity |]. split; [reflexivity |]. discriminate.
Qed.

End BakeRuns.

Section CubeBake.
Context {S : Type} `{GridStorage S}.

Lemma to_int_integral (r : Real) (n : Z) :
  r == of_int n -> (INT_MIN <= n <= INT_MAX)%Z -> to_int r = Some n.
Proof.
  intros E [B1 B2]. unfold to_int. rewrite (trunc_comp _ _ E), trunc_of_int.
  apply Z.leb_le in B1. apply Z.leb_le in B2. rewrite B1, B2. reflexivity.
Qed.

Lemma Clamp_inside (v lo hi : Z) : (lo <= v <= hi)%Z -> Clamp v lo hi = v.
Proof. unfold Clamp. lia. Qed.

(** For an integral centre and an integral radius whose cube lies in the
    lattice, a call that returns has written the half-open cube: on each
    axis the lattice points from centre - radius up to centre + radius - 1.
    The plane at centre + radius is not written, the one at centre - radius
    is. *)
Theorem combineWithSource_integral_cube
        (source : Source) (center : Vector3) (radius : Real) (w0 w' : World S)
        (cx cy cz r : Z) :
  vx center == of_int cx -> vy center == of_int cy -> vz center == of_int cz ->
  radius == of_int r -> (0 <= r)%Z ->
  int_dims (grid w0) ->
  (0 <= cx - r /\ cx + r <= mWidth (grid w0))%Z ->
  (0 <= cy - r /\ cy + r <= mHeight (grid w0))%Z ->
  (0 <= cz - r /\ cz + r <= mDepth (grid w0))%Z ->
  combineWithSource source center radius w0 = (w', Returns tt) ->
  exists l, events w' = events w0 ++ l /\
            forall x y z, In (x, y, z) (writes l) <->
                          (cx - r <= x < cx + r /\ cy - r <= y < cy + r /\
                           cz - r <= z < cz + r)%Z.
Proof.
  intros EX EY EZ ER R0 (DW & DH & DD) BX BY BZ E.
  assert (I : (INT_MIN <= 0)%Z) by (unfold INT_MIN; lia).
  assert (Sub : forall c n, c == of_int n -> c - radius == of_int (n - r)).
  { intros c n Ec. rewrite Ec, ER. unfold of_int, Z.sub.
    rewrite inject_Z_plus, inject_Z_opp. ring. }
  assert (Add : forall c n, c == of_int n -> c + radius == of_int (n + r)).
  { intros c n Ec. rewrite Ec, ER. unfold of_int. rewrite inject_Z_plus. ring. }
  assert (EB : iterationBox (grid w0) center radius =
               Some (mkBounds (cx - r) (cx + r) (cy - r) (cy + r) (cz - r) (cz + r))).
  { unfold iterationBox.
    rewrite (to_int_integral _ _ (Sub _ _ EX)) by lia.
    rewrite (to_int_integral _ _ (Add _ _ EX)) by lia.
    rewrite (to_int_integral _ _ (Sub _ _ EY)) by lia.
    rewrite (to_int_integral _ _ (Add _ _ EY)) by lia.
    rewrite (to_int_integral _ _ (Sub _ _ EZ)) by lia.
    rewrite (to_int_integral _ _ (Add _ _ EZ)) by lia.
    cbn [obind]. rewrite !Clamp_inside by lia. reflexivity. }
  destruct (combineWithSource_pass _ _ _ _ _ _ _ E EB) as (w2 & EL & Ev & _).
  destruct (for_each_bakeStep_log _ _ _ _ _ _ _ _ EL)
    as (l & done & rest & El & Ecs & Wl & _ & _ & Ret & _).
  destruct (Ret eq_refl) as (-> & _). rewrite app_nil_r in Ecs. subst done.
  exists l. split; [rewrite Ev; exact El |].
  intros x y z. rewrite Wl, In_boxPoints. unfold in_box.
  cbn [xStart xEnd yStart yEnd zStart zEnd]. tauto.
Qed.

End CubeBake.

Section InPlace.
Context {S : Type} `{LawfulStorage S}.

Lemma NoDup_zseq (n : nat) (i : Z) : NoDup (zseq i n).
Proof.
  revert i. induction n as [| n IH]; intros i; cbn [zseq]; constructor.
  - rewrite In_zseq. lia.
  - apply IH.
Qed.

Lemma NoDup_boxPoints (b : Box) : NoDup (boxPoints b).
Proof.
  unfold boxPoints, range.
  generalize (zseq (zStart b) (Z.to_nat (zEnd b - zStart b))) (NoDup_zseq (Z.to_nat (zEnd b - zStart b)) (zStart b)).
  generalize (zseq (yStart b) (Z.to_nat (yEnd b - yStart b))) (NoDup_zseq (Z.to_nat (yEnd b - yStart b)) (yStart b)).
  generalize (zseq (xStart b) (Z.to_nat (xEnd b - xStart b))) (NoDup_zseq (Z.to_nat (xEnd b - xStart b)) (xStart b)).
  intros xs Nx ys Ny zs Nz.
  assert (Row : forall y z : Z, NoDup (map (fun x => (x, y, z)) xs)).
  { intros y z. induction Nx as [| x xs' Hx Nx IH]; cbn; constructor; [| exact IH].
    rewrite in_map_iff. intros (x' & Eq & Hin). injection Eq as ->. contradiction. }
  assert (Plane : forall z : Z,
            NoDup (flat_map (fun y => map (fun x => (x, y, z)) xs) ys)).
  { intros z. induction Ny as [| y ys' Hy Ny IH]; cbn; [constructor |].
    apply NoDup_app; [apply Row | exact IH |].
    intros c Hc Hc'. apply in_map_iff in Hc. destruct Hc as (x & <- & _).
    apply in_flat_map in Hc'. destruct Hc' as (y' & Hy' & Hc').
    apply in_map_iff in Hc'. destruct Hc' as (x' & Eq & _).
    injection Eq as _ ->. contradiction. }
  induction Nz as [| z zs' Hz Nz IH]; cbn; [constructor |].
  apply NoDup_app; [apply Plane | exact IH |].
  intros c Hc Hc'. apply in_flat_map in Hc. destruct Hc as (y & _ & Hc).
  apply in_map_iff in Hc. destruct Hc as (x & <- & _).
  apply in_flat_map in Hc'. destruct Hc' as (z' & Hz' & Hc').
  apply in_flat_map in Hc'. destruct Hc' as (y' & _ & Hc').
  apply in_map_iff in Hc'. destruct Hc' as (x' & Eq & _).
  injection Eq as _ _ ->. contradiction.
Qed.

(** A sample that no logged write touches reads as before. *)
Lemma replay_other (l : list (Event S)) (s : S) (x y z : Z) :
  ~ In (x, y, z) (writes l) ->
  getVolumeGridValue (replay l s) x y z = getVolumeGridValue s x y z.
Proof.
  revert s. induction l as [| [g p | x0 y0 z0 v] l IH]; intros s Nin.
  - reflexivity.
  - apply (IH s). exact Nin.
  - cbn [writes] in Nin. change (replay (EvSetValue x0 y0 z0 v :: l) s)
      with (replay l (setVolumeGridValue s x0 y0 z0 v)).
    rewrite IH by (intros Hin; apply Nin; right; exact Hin).
    apply get_set_other. intros Eq. apply Nin. left. exact Eq.
Qed.

(** One pass over distinct lattice points that returns: each point holds
    the value the operator returned for it, and the operator was called on
    a state of the grid in which that point still had its earlier sample. *)
Lemma for_each_bakeStep_stored (source : Source) (sx sy sz : Real) (cs : list (Z * Z * Z)) :
  NoDup cs ->
  forall (w w' : World S),
  mA (operation w) = Some ThisGrid -> mB (operation w) = Some OtherSource ->
  for_each cs (bakeStep source sx sy sz) w = (w', Returns tt) ->
  forall c, In c cs ->
  exists s_i,
    sampleAt (set_mStorage s_i (grid w)) c = sampleAt (grid w) c /\
    evaluate (operation w) (Some (thisView (set_mStorage s_i (grid w)))) (Some source)
             (indexPosition sx sy sz c) = Returns (sampleAt (grid w') c).
Proof.
  induction 1 as [| c0 cs Hc0 Ncs IH]; intros w w' EA EB E c Hin; [contradiction |].
  cbn [for_each] in E. unfold bind in E. destruct c0 as [[x0 y0] z0].
  rewrite bakeStep_run in E. cbv zeta in E. rewrite EA, EB in E. cbn [option_map] in E.
  destruct (evaluate (operation w) (Some (deref w source ThisGrid))
                     (Some (deref w source OtherSource))
                     (indexPosition sx sy sz (x0, y0, z0))) as [v | |] eqn:Ev;
    try discriminate.
  set (w1 := mkWorld (set_mStorage (setVolumeGridValue (mStorage (grid w)) x0 y0 z0 v) (grid w))
                     (operation w)
                     ((events w ++ [EvGetValue (grid w) (indexPosition sx sy sz (x0, y0, z0))])
                        ++ [EvSetValue x0 y0 z0 v])) in E.
  destruct (for_each_bakeStep_log _ _ _ _ _ _ _ _ E)
    as (l & done & rest & _ & Ecs & Wl & Gl & _ & Ret & _).
  destruct (Ret eq_refl) as (-> & _). rewrite app_nil_r in Ecs. subst done.
  destruct Hin as [<- | Hin].
  - exists (mStorage (grid w)). rewrite set_mStorage_same. split; [reflexivity |].
    change (deref w source ThisGrid) with (thisView (grid w)) in Ev.
    change (deref w source OtherSource) with source in Ev.
    rewrite Ev. f_equal. rewrite Gl. cbn [sampleAt set_mStorage mStorage grid w1].
    rewrite replay_other by (rewrite Wl; exact Hc0).
    symmetry. apply get_set_same.
  - destruct (IH w1 w' EA EB E c Hin) as (s_i & Es & Ee).
    exists s_i. cbn [grid operation w1] in Es, Ee.
    change (set_mStorage s_i
              (set_mStorage (setVolumeGridValue (mStorage (grid w)) x0 y0 z0 v) (grid w)))
      with (set_mStorage s_i (grid w)) in Es, Ee.
    split; [| exact Ee].
    rewrite Es. destruct c as [[x y] z]. cbn [sampleAt set_mStorage mStorage].
    apply get_set_other. intros Eq. apply Hc0. rewrite Eq. exact Hin.
Qed.

End InPlace.

Section RoundTrip.
Context {S : Type} `{GridStorage S}.

(** Index to world position and back: with non-zero scale factors the
    scaled coordinates of a lattice point's world position are its
    indices. *)
Lemma scaledPosition_latticeToWorld (g : GridSource S) (x y z : Z) :
  ~ mPosXScale g == 0 -> ~ mPosYScale g == 0 -> ~ mPosZScale g == 0 ->
  let sp := scaledPosition g (latticeToWorld g (x, y, z)) in
  vx sp == of_int x /\ vy sp == of_int y /\ vz sp == of_int z.
Proof.
  intros NX NY NZ. cbn. unfold of_int. split; [| split]; field; assumption.
Qed.

Lemma getValue_nearest_at_lattice_position (g : GridSource S) (x y z : Z) :
  ~ mPosXScale g == 0 -> ~ mPosYScale g == 0 -> ~ mPosZScale g == 0 ->
  (0 <= x <= SIZE_MAX)%Z -> (0 <= y <= SIZE_MAX)%Z -> (0 <= z <= SIZE_MAX)%Z ->
  mTrilinearValue g = false ->
  getValue g (latticeToWorld g (x, y, z)) = Some (getVolumeGridValue (mStorage g) x y z).
Proof.
  intros NX NY NZ BX BY BZ T.
  destruct (scaledPosition_latticeToWorld g x y z NX NY NZ) as (EX & EY & EZ).
  unfold getValue. rewrite T.
  rewrite (to_size_t_half_integral _ _ EX BX), (to_size_t_half_integral _ _ EY BY),
    (to_size_t_half_integral _ _ EZ BZ).
  reflexivity.
Qed.

(** With the value flag clear, sampling the grid at the world position of
    a lattice point reads that lattice point and no other, as long as the
    scale factors are not zero: the nearest-neighbour rounding absorbs the
    bake's index-to-world conversion followed by the sampler's
    world-to-index conversion. *)
Theorem getValue_at_lattice_position (g : GridSource S) (x y z : Z) :
  ~ mPosXScale g == 0 -> ~ mPosYScale g == 0 -> ~ mPosZScale g == 0 ->
  (0 <= x <= SIZE_MAX)%Z -> (0 <= y <= SIZE_MAX)%Z -> (0 <= z <= SIZE_MAX)%Z ->
  mTrilinearValue g = false ->
  valuePoints g (latticeToWorld g (x, y, z)) = [(x, y, z)] /\
  getValue g (latticeToWorld g (x, y, z)) = Some (getVolumeGridValue (mStorage g) x y z).
Proof.
  intros NX NY NZ BX BY BZ T.
  split; [| apply getValue_nearest_at_lattice_position; assumption].
  destruct (scaledPosition_latticeToWorld g x y z NX NY NZ) as (EX & EY & EZ).
  unfold valuePoints. rewrite T.
  rewrite (to_size_t_half_integral _ _ EX BX), (to_size_t_half_integral _ _ EY BY),
    (to_size_t_half_integral _ _ EZ BZ).
  reflexivity.
Qed.

End RoundTrip.

Section InPlaceBake.
Context {S : Type} `{LawfulStorage S}.

Lemma iterationBox_in_int (g : GridSource S) (center : Vector3) (radius : Real)
      (b : Box) (x y z : Z) :
  iterationBox g center radius = Some b -> in_box b x y z ->
  (0 <= x <= SIZE_MAX /\ 0 <= y <= SIZE_MAX /\ 0 <= z <= SIZE_MAX)%Z.
Proof.
  unfold iterationBox. intros E.
  destruct (to_int (vx center - radius)) as [xs |] eqn:E1; [| discriminate].
  destruct (to_int (vx center + radius)) as [xe |] eqn:E2; [| discriminate].
  destruct (to_int (vy center - radius)) as [ys |] eqn:E3; [| discriminate].
  destruct (to_int (vy center + radius)) as [ye |] eqn:E4; [| discriminate].
  destruct (to_int (vz center - radius)) as [zs |] eqn:E5; [| discriminate].
  destruct (to_int (vz center + radius)) as [ze |] eqn:E6; [| discriminate].
  cbn [obind] in E. injection E as <-.
  apply to_int_Some in E2, E4, E6.
  destruct E2 as (_ & _ & UX), E4 as (_ & _ & UY), E6 as (_ & _ & UZ).
  pose proof int_max_size_max.
  unfold in_box. cbn [xStart xEnd yStart yEnd zStart zEnd].
  intros (Hx & Hy & Hz).
  assert (Ax : forall s e dim v : Z, (e <= INT_MAX)%Z ->
             (Clamp s 0 dim <= v < Clamp e 0 dim)%Z -> (0 <= v <= SIZE_MAX)%Z).
  { intros s e dim v He Hv. unfold Clamp in Hv. lia. }
  split; [| split];
    [apply (Ax _ _ _ _ UX Hx) | apply (Ax _ _ _ _ UY Hy) | apply (Ax _ _ _ _ UZ Hz)].
Qed.

(** The bake works in place, safely.  After a call that returns, every
    lattice point of the box holds the value the operator returned at that
    point's world position; and the operator was then looking at a state of
    this grid (value flag clear, other members as before the call) in which
    that point still had its sample of before the call, which is what the
    grid answers at that position when the scale factors are not zero. *)
Theorem combineWithSource_stores_operator_values
        (source : Source) (center : Vector3) (radius : Real) (w0 w' : World S)
        (b : Box) (x y z : Z) :
  combineWithSource source center radius w0 = (w', Returns tt) ->
  iterationBox (grid w0) center radius = Some b ->
  in_box b x y z ->
  exists s_i,
    let seen := set_mStorage s_i (set_mTrilinearValue false (grid w0)) in
    let pos := latticeToWorld (grid w0) (x, y, z) in
    getVolumeGridValue s_i x y z = getVolumeGridValue (mStorage (grid w0)) x y z /\
    evaluate (operation w0) (Some (thisView seen)) (Some source) pos
      = Returns (getVolumeGridValue (mStorage (grid w')) x y z) /\
    (~ mPosXScale (grid w0) == 0 -> ~ mPosYScale (grid w0) == 0 ->
     ~ mPosZScale (grid w0) == 0 ->
     thisView seen pos = Returns (getVolumeGridValue (mStorage (grid w0)) x y z)).
Proof.
  intros E EB Hin.
  destruct (combineWithSource_pass _ _ _ _ _ _ _ E EB) as (w2 & EL & _ & _ & St & _).
  assert (Hc : In (x, y, z) (boxPoints b)) by (apply In_boxPoints; exact Hin).
  destruct (for_each_bakeStep_stored source _ _ _ _ (NoDup_boxPoints b)
              (bakeStart w0) w2 eq_refl eq_refl EL (x, y, z) Hc) as (s_i & Es & Ee).
  exists s_i. cbv zeta. cbn [grid operation bakeStart sampleAt set_mStorage mStorage] in Es, Ee.
  split; [exact Es |].
  split.
  - rewrite St, latticeToWorld_indexPosition. exact Ee.
  - intros NX NY NZ.
    destruct (iterationBox_in_int _ _ _ _ _ _ _ EB Hin) as (BX & BY & BZ).
    unfold thisView.
    rewrite (getValue_nearest_at_lattice_position
               (set_mStorage s_i (set_mTrilinearValue false (grid w0)))
               x y z NX NY NZ BX BY BZ eq_refl).
    cbn [of_option set_mStorage mStorage]. rewrite Es. reflexivity.
Qed.

(** However the call ends, the lattice points written so far are an initial
    stretch of the box in loop order, the whole of it exactly when the call
    returns; every other sample, inside or outside the box, reads as before
    the call, and so do the dimensions, the scale factors, the
    volume-to-world factor, the gradient flag and the Sobel flag. *)
Theorem combineWithSource_partial_bake
        (source : Source) (center : Vector3) (radius : Real)
        (w0 w' : World S) (o : outcome unit) (b : Box) :
  combineWithSource source center radius w0 = (w', o) ->
  iterationBox (grid w0) center radius = Some b ->
  exists l done rest,
    events w' = events w0 ++ l /\
    boxPoints b = done ++ rest /\
    writes l = done /\
    (rest = [] <-> o = Returns tt) /\
    (forall x y z, ~ In (x, y, z) done ->
       getVolumeGridValue (mStorage (grid w')) x y z =
       getVolumeGridValue (mStorage (grid w0)) x y z) /\
    same_config (grid w0) (grid w').
Proof.
  intros E EB.
  destruct (combineWithSource_pass _ _ _ _ _ _ _ E EB) as (w2 & EL & Ev & _ & St & Cf & _).
  destruct (for_each_bakeStep_log _ _ _ _ _ _ _ _ EL)
    as (l & done & rest & El & Ecs & Wl & Gl & _ & Ret & Abn).
  exists l, done, rest.
  split; [rewrite Ev; exact El |]. split; [exact Ecs |]. split; [exact Wl |].
  split; [| split].
  - split.
    + intros ->. destruct o as [[] | |]; [reflexivity | |];
        (destruct Abn as (c & rest' & Eq & _); [discriminate | discriminate]).
    + intros Eo. apply Ret. exact Eo.
  - intros x y z Nin. rewrite St, Gl. cbn [set_mStorage mStorage grid bakeStart].
    apply replay_other. rewrite Wl. exact Nin.
  - rewrite Gl in Cf. unfold same_config in *. cbn in Cf |- *. exact Cf.
Qed.

End InPlaceBake.

Section EntryPoint.
Context {S : Type} {P : RayBoxPrimitives}.

(** The entry point is stable: when the ray/box test, if it reports a hit
    for an origin outside the box, puts the entry point in the box, taking
    the entry point as the new origin of the ray gives the same entry
    point. *)
Theorem getIntersectionStart_idempotent (g : GridSource S) (ray : Ray) (d d' : Real) :
  (~ inside_box g (getOrigin ray) -> fst (ray_intersects ray (gridBox g)) = true ->
   inside_box g (getIntersectionStart g ray d)) ->
  getIntersectionStart g (mkRay (getIntersectionStart g ray d) (getDirection ray)) d'
  = getIntersectionStart g ray d.
Proof.
  intros Hit.
  assert (In' : forall r, box_contains (gridBox g) (getOrigin r) = true ->
                          getIntersectionStart g r d' = getOrigin r).
  { intros r B. unfold getIntersectionStart. rewrite B. reflexivity. }
  destruct (box_contains (gridBox g) (getOrigin ray)) eqn:B.
  - assert (E : getIntersectionStart g ray d = getOrigin ray).
    { unfold getIntersectionStart. rewrite B. reflexivity. }
    rewrite E. apply (In' (mkRay (getOrigin ray) (getDirection ray))). exact B.
  - assert (NB : ~ inside_box g (getOrigin ray)).
    { intros I. apply box_contains_inside in I. congruence. }
    destruct (fst (ray_intersects ray (gridBox g))) eqn:F.
    + apply (In' (mkRay (getIntersectionStart g ray d) (getDirection ray))).
      apply box_contains_inside. apply Hit; [exact NB | reflexivity].
    + assert (E : getIntersectionStart g ray d = getOrigin ray).
      { unfold getIntersectionStart. rewrite B, F. reflexivity. }
      rewrite E. destruct ray as [o dir]. cbn [getOrigin getDirection].
      unfold getIntersectionStart. cbn [getOrigin getDirection] in B, F |- *.
      rewrite B, F. reflexivity.
Qed.

End EntryPoint.

Section BakeTwice.
Context {S : Type} `{LawfulStorage S}.

Lemma iterationBox_same_dims (g g' : GridSource S) (center : Vector3) (radius : Real) :
  same_config g g' -> iterationBox g' center radius = iterationBox g center radius.
Proof.
  intros (W & Hh & D & _). unfold iterationBox. rewrite W, Hh, D. reflexivity.
Qed.

Lemma latticeToWorld_same_scale (g g' : GridSource S) (c : Z * Z * Z) :
  same_config g g' -> latticeToWorld g' c = latticeToWorld g c.
Proof.
  intros (_ & _ & _ & X & Y & Z0 & _). destruct c as [[x y] z].
  unfold latticeToWorld. rewrite X, Y, Z0. reflexivity.
Qed.

(** What one returning call leaves: the box samples are the operator's
    values, the others are untouched, the configuration and the operator's
    callback are the same. *)
Lemma combineWithSource_summary
      (source : Source) (center : Vector3) (radius : Real) (w0 w' : World S) (b : Box) :
  combineWithSource source center radius w0 = (w', Returns tt) ->
  iterationBox (grid w0) center radius = Some b ->
  same_config (grid w0) (grid w') /\
  evaluate (operation w') = evaluate (operation w0) /\
  (forall x y z, ~ in_box b x y z ->
     getVolumeGridValue (mStorage (grid w')) x y z =
     getVolumeGridValue (mStorage (grid w0)) x y z) /\
  (forall x y z, in_box b x y z ->
     exists a, evaluate (operation w0) (Some a) (Some source)
                        (latticeToWorld (grid w0) (x, y, z))
               = Returns (getVolumeGridValue (mStorage (grid w')) x y z)).
Proof.
  intros E EB.
  destruct (combineWithSource_pass _ _ _ _ _ _ _ E EB) as (w2 & EL & _ & Op & St & Cf & _).
  destruct (for_each_bakeStep_log _ _ _ _ _ _ _ _ EL)
    as (l & done & rest & _ & Ecs & Wl & Gl & O2 & Ret & _).
  destruct (Ret eq_refl) as (-> & _). rewrite app_nil_r in Ecs. subst done.
  split; [| split; [| split]].
  - rewrite Gl in Cf. unfold same_config in *. cbn in Cf |- *. exact Cf.
  - rewrite Op, O2. reflexivity.
  - intros x y z Nin. rewrite St, Gl. cbn [set_mStorage mStorage grid bakeStart].
    apply replay_other. rewrite Wl, In_boxPoints. exact Nin.
  - intros x y z Hin.
    assert (Hc : In (x, y, z) (boxPoints b)) by (apply In_boxPoints; exact Hin).
    destruct (for_each_bakeStep_stored source _ _ _ _ (NoDup_boxPoints b)
                (bakeStart w0) w2 eq_refl eq_refl EL (x, y, z) Hc) as (s_i & _ & Ee).
    cbn [grid operation bakeStart sampleAt] in Ee.
    eexists. rewrite St, latticeToWorld_indexPosition. exact Ee.
Qed.

(** Baking twice is baking once, for an operator that does not read its
    first operand (it replaces the samples by a function of the other field
    and the position): a second call with the same field, centre and radius
    leaves every sample as the first call left it. *)
Theorem combineWithSource_twice
        (source : Source) (center : Vector3) (radius : Real) (w0 w1 w2 : World S) :
  (forall a a' b p, evaluate (operation w0) a b p = evaluate (operation w0) a' b p) ->
  combineWithSource source center radius w0 = (w1, Returns tt) ->
  combineWithSource source center radius w1 = (w2, Returns tt) ->
  forall x y z,
    getVolumeGridValue (mStorage (grid w2)) x y z =
    getVolumeGridValue (mStorage (grid w1)) x y z.
Proof.
  intros Ign E1 E2 x y z.
  destruct (iterationBox (grid w0) center radius) as [b |] eqn:EB.
  - destruct (combineWithSource_summary _ _ _ _ _ _ E1 EB) as (C1 & O1 & _ & In1).
    assert (EB1 : iterationBox (grid w1) center radius = Some b).
    { rewrite (iterationBox_same_dims _ _ _ _ C1). exact EB. }
    destruct (combineWithSource_summary _ _ _ _ _ _ E2 EB1) as (_ & _ & Out2 & In2).
    assert (D : in_box b x y z \/ ~ in_box b x y z) by (unfold in_box; lia).
    destruct D as [Hin | Nin]; [| apply Out2; exact Nin].
    destruct (In1 x y z Hin) as (a1 & V1). destruct (In2 x y z Hin) as (a2 & V2).
    rewrite O1, (latticeToWorld_same_scale _ _ _ C1), (Ign _ (Some a1)), V1 in V2.
    injection V2 as V2. symmetry. exact V2.
  - rewrite combineWithSource_unfold in E1. cbv zeta in E1. rewrite EB in E1. discriminate.
Qed.

End BakeTwice.

(* ================================================================== *)
(** ** Concrete runs for the further properties *)

Section MoreRuns.
Import Dense.

Lemma two_not_zero : ~ 2 == 0.
Proof. intros E. discriminate E. Qed.

Lemma getValue_trilinear_along_x_witness :
  exists v, getValue (grid4 1 true true spike) (mkVector3 (3#2) 2 2) = Some v /\
            v == (1 - (1#2)) * getVolumeGridValue (mStorage (grid4 1 true true spike)) 1 2 2
                 + (1#2) * getVolumeGridValue (mStorage (grid4 1 true true spike)) (1 + 1)%Z 2 2.
Proof.
  apply (getValue_trilinear_along_x (grid4 1 true true spike) (mkVector3 (3#2) 2 2)
           1 2 2 (1#2));
    [reflexivity | reflexivity | reflexivity | reflexivity | reflexivity | reflexivity
     | lia | unfold SIZE_MAX; lia | unfold SIZE_MAX; lia | unfold SIZE_MAX; lia].
Defined.

Lemma getValue_below_origin_witness :
  getValue (grid4 1 false true spike) (mkVector3 (-(1#2)) (-(1#4)) 0)
    = Some (getVolumeGridValue (mStorage (grid4 1 false true spike)) 0 0 0).
Proof.
  apply (proj1 (proj2 (proj2
           (getValue_below_origin (grid4 1 false true spike)
              (mkVector3 (-(1#2)) (-(1#4)) 0)
              ltac:(reflexivity) ltac:(apply Qle_bool_iff; reflexivity)
              ltac:(reflexivity) ltac:(apply Qle_bool_iff; reflexivity)
              ltac:(reflexivity) ltac:(apply Qle_bool_iff; reflexivity))))).
  reflexivity.
Defined.

Lemma getValue_defined_iff_witness :
  exists v, getValue (grid4 1 false true ramp) (mkVector3 (-(1)) 4 (9#2)) = Some v.
Proof.
  apply (proj2 (getValue_defined_iff (grid4 1 false true ramp) (mkVector3 (-(1)) 4 (9#2)))).
  unfold value_domain. cbn. unfold of_int, SIZE_MAX. repeat split; reflexivity.
Defined.

Lemma getValueAndGradient_at_lattice_point_witness :
  exists v, getValueAndGradient (grid4 1 true false ramp) (mkVector3 1 2 3) = Some v /\
            v4x v == - (2) /\ v4w v == 1.
Proof.
  destruct (getValueAndGradient_at_lattice_point
              (grid4 1 true false ramp) (mkVector3 1 2 3) 1 2 3)
    as (v & E & EX & _ & _ & EW);
    [reflexivity | reflexivity | reflexivity
     | unfold SIZE_MAX; lia | unfold SIZE_MAX; lia | unfold SIZE_MAX; lia |].
  exists v. split; [exact E |]. split; [rewrite EX | rewrite EW]; reflexivity.
Defined.

Lemma getValue_at_lattice_position_witness :
  getValue (grid4 2 false true ramp) (latticeToWorld (grid4 2 false true ramp) (1, 2, 3)%Z)
    = Some (getVolumeGridValue (mStorage (grid4 2 false true ramp)) 1 2 3).
Proof.
  assert (B : forall n : Z, (0 <= n <= 3)%Z -> (0 <= n <= SIZE_MAX)%Z)
    by (unfold SIZE_MAX; lia).
  apply (proj2 (getValue_at_lattice_position (grid4 2 false true ramp) 1 2 3
                  two_not_zero two_not_zero two_not_zero
                  (B 1%Z ltac:(lia)) (B 2%Z ltac:(lia)) (B 3%Z ltac:(lia))
                  eq_refl)).
Defined.

Lemma combineWithSource_binds_operands_witness :
  let w0 := world0 (grid4 1 true true spike) throwingOperation in
  match combineWithSource seven (mkVector3 2 2 2) 1 w0 with
  | (w', _) => mA (operation w') = Some ThisGrid /\ mB (operation w') = Some OtherSource /\
               evaluate (operation w') = evaluate (operation w0)
  end.
Proof.
  intros w0.
  destruct (combineWithSource seven (mkVector3 2 2 2) 1 w0) as [w' o] eqn:E.
  exact (combineWithSource_binds_operands seven (mkVector3 2 2 2) 1 w0 w' o E).
Defined.

Lemma combineWithSource_evaluation_order_witness :
  let g := grid4 2 false true spike in
  let w0 := world0 g unionOperation in
  match combineWithSource seven (mkVector3 1 1 1) 1 w0 with
  | (w', o) =>
      o = Returns tt /\
      exists b l, iterationBox g (mkVector3 1 1 1) 1 = Some b /\
                  events w' = events w0 ++ l /\
                  evaluated l = map (latticeToWorld g) (boxPoints b)
  end.
Proof.
  intros g w0.
  destruct (combineWithSource seven (mkVector3 1 1 1) 1 w0) as [w' o] eqn:E.
  assert (Eo : o = Returns tt).
  { pose proof E as E'. vm_compute in E'. injection E' as _ Ho. symmetry. exact Ho. }
  split; [exact Eo |]. subst o.
  exact (combineWithSource_evaluation_order seven (mkVector3 1 1 1) 1 w0 w' E).
Defined.

Lemma combineWithSource_completes_witness :
  exists w', combineWithSource seven (mkVector3 2 2 2) 1
               (world0 (grid4 1 true true spike) fillOperation) = (w', Returns tt).
Proof.
  apply (combineWithSource_completes seven (mkVector3 2 2 2) 1
           (world0 (grid4 1 true true spike) fillOperation));
    try (unfold int_convertible, of_int, INT_MIN, INT_MAX; cbn; split; reflexivity).
  intros a b p. exists 3. reflexivity.
Defined.

Lemma combineWithSource_radius_not_positive_witness :
  let w0 := world0 (grid4 1 true true spike) throwingOperation in
  match combineWithSource seven (mkVector3 2 2 2) 0 w0 with
  | (w', o) => events w' = events w0 /\ mStorage (grid w') = mStorage (grid w0) /\
               o <> Throws
  end.
Proof.
  intros w0.
  destruct (combineWithSource seven (mkVector3 2 2 2) 0 w0) as [w' o] eqn:E.
  destruct (combineWithSource_radius_not_positive seven (mkVector3 2 2 2) 0 w0 w' o)
    as (Ev & St & No & _); [apply Qle_bool_iff; reflexivity | exact E |].
  auto.
Defined.

Lemma combineWithSource_off_lattice_witness :
  let w0 := world0 (grid4 1 true true spike) throwingOperation in
  match combineWithSource seven (mkVector3 (-(5)) 2 2) 1 w0 with
  | (w', o) => events w' = events w0 /\ mStorage (grid w') = mStorage (grid w0) /\
               o <> Throws
  end.
Proof.
  intros w0.
  destruct (combineWithSource seven (mkVector3 (-(5)) 2 2) 1 w0) as [w' o] eqn:E.
  apply (combineWithSource_off_lattice seven (mkVector3 (-(5)) 2 2) 1 w0 w' o);
    [left; reflexivity | exact E].
Defined.

Lemma combineWithSource_integral_cube_witness :
  let w0 := world0 (grid4 1 true true spike) unionOperation in
  match combineWithSource seven (mkVector3 2 2 2) 1 w0 with
  | (w', o) =>
      o = Returns tt /\
      exists l, events w' = events w0 ++ l /\
                forall x y z, In (x, y, z) (writes l) <->
                              (2 - 1 <= x < 2 + 1 /\ 2 - 1 <= y < 2 + 1 /\
                               2 - 1 <= z < 2 + 1)%Z
  end.
Proof.
  intros w0.
  destruct (combineWithSource seven (mkVector3 2 2 2) 1 w0) as [w' o] eqn:E.
  assert (Eo : o = Returns tt).
  { pose proof E as E'. vm_compute in E'. injection E' as _ Ho. symmetry. exact Ho. }
  split; [exact Eo |]. subst o.
  apply (combineWithSource_integral_cube seven (mkVector3 2 2 2) 1 w0 w' 2 2 2 1);
    [reflexivity | reflexivity | reflexivity | reflexivity | lia | apply grid4_int_dims
     | cbn; lia | cbn; lia | cbn; lia | exact E].
Defined.

Lemma combineWithSource_stores_operator_values_witness :
  let g := grid4 2 true true spike in
  let w0 := world0 g unionOperation in
  match combineWithSource seven (mkVector3 1 1 1) 1 w0 with
  | (w', o) =>
      o = Returns tt /\
      exists s_i,
        getVolumeGridValue s_i 1 1 1 = getVolumeGridValue (mStorage g) 1 1 1 /\
        evaluate unionOperation
                 (Some (thisView (set_mStorage s_i (set_mTrilinearValue false g))))
                 (Some seven) (latticeToWorld g (1, 1, 1)%Z)
          = Returns (getVolumeGridValue (mStorage (grid w')) 1 1 1)
  end.
Proof.
  intros g w0.
  destruct (combineWithSource seven (mkVector3 1 1 1) 1 w0) as [w' o] eqn:E.
  assert (Eo : o = Returns tt).
  { pose proof E as E'. vm_compute in E'. injection E' as _ Ho. symmetry. exact Ho. }
  split; [exact Eo |]. subst o.
  destruct (combineWithSource_stores_operator_values (H0 := dense_lawful)
              seven (mkVector3 1 1 1) 1 w0 w' (mkBounds 0 2 0 2 0 2) 1 1 1 E)
    as (s_i & Es & Ee & _).
  - vm_compute. reflexivity.
  - unfold in_box. cbn. lia.
  - exists s_i. split; [exact Es | exact Ee].
Defined.

Lemma combineWithSource_partial_bake_witness :
  let g := grid4 1 true true spike in
  let w0 := world0 g throwingOperation in
  match combineWithSource seven (mkVector3 2 2 2) 1 w0 with
  | (w', o) =>
      exists l done rest,
        events w' = events w0 ++ l /\
        boxPoints (mkBounds 1 3 1 3 1 3) = done ++ rest /\
        writes l = done /\
        (rest = [] <-> o = Returns tt) /\
        (forall x y z, ~ In (x, y, z) done ->
           getVolumeGridValue (mStorage (grid w')) x y z =
           getVolumeGridValue (mStorage g) x y z) /\
        same_config g (grid w')
  end.
Proof.
  intros g w0.
  destruct (combineWithSource seven (mkVector3 2 2 2) 1 w0) as [w' o] eqn:E.
  apply (combineWithSource_partial_bake (H0 := dense_lawful)
           seven (mkVector3 2 2 2) 1 w0 w' o (mkBounds 1 3 1 3 1 3) E).
  vm_compute. reflexivity.
Defined.

Lemma getIntersectionStart_idempotent_witness :
  let towards := mkRay (mkVector3 (-(3)) 1 1) (mkVector3 1 0 0) in
  getIntersectionStart (P := xRays) grid236
    (mkRay (getIntersectionStart (P := xRays) grid236 towards 100) (mkVector3 1 0 0)) 50
  = getIntersectionStart (P := xRays) grid236 towards 100.
Proof.
  intros towards.
  apply (getIntersectionStart_idempotent (P := xRays) grid236 towards 100 50).
  intros _ _. unfold inside_box. vm_compute. repeat split; discriminate.
Defined.

Lemma combineWithSource_twice_witness :
  let w0 := world0 (grid4 1 true true spike) fillOperation in
  match combineWithSource seven (mkVector3 2 2 2) 1 w0 with
  | (w1, o1) =>
      match combineWithSource seven (mkVector3 2 2 2) 1 w1 with
      | (w2, o2) =>
          o1 = Returns tt /\ o2 = Returns tt /\
          forall x y z,
            getVolumeGridValue (mStorage (grid w2)) x y z =
            getVolumeGridValue (mStorage (grid w1)) x y z
      end
  end.
Proof.
  intros w0.
  destruct (combineWithSource seven (mkVector3 2 2 2) 1 w0) as [w1 o1] eqn:E1.
  destruct (combineWithSource seven (mkVector3 2 2 2) 1 w1) as [w2 o2] eqn:E2.
  assert (NF : never_fails (operation w0)) by (intros a b p; exists 3; reflexivity).
  assert (Eo1 : o1 = Returns tt).
  { pose proof E1 as E'. vm_compute in E'. injection E' as _ Ho. symmetry. exact Ho. }
  subst o1.
  assert (Eo2 : o2 = Returns tt).
  { destruct (combineWithSource_summary (H0 := dense_lawful) seven (mkVector3 2 2 2) 1
                w0 w1 (mkBounds 1 3 1 3 1 3) E1 eq_refl) as (C1 & O1 & _).
    destruct (combineWithSource_returns seven (mkVector3 2 2 2) 1 w1 (mkBounds 1 3 1 3 1 3))
      as (w2' & E2').
    - rewrite (iterationBox_same_dims _ _ _ _ C1). reflexivity.
    - intros a b p. rewrite O1. apply NF.
    - rewrite E2' in E2. injection E2 as _ <-. reflexivity. }
  subst o2.
  split; [reflexivity |]. split; [reflexivity |].
  apply (combineWithSource_twice (H0 := dense_lawful) seven (mkVector3 2 2 2) 1 w0 w1 w2);
    [intros a a' b p; reflexivity | exact E1 | exact E2].
Defined.

End MoreRuns.
